(** * MacroProject: the event codec, the recorder and the player of [main.py]

    A shallow embedding of the capture / codec / playback core of the macro
    recorder, followed by the properties of its specification.

    Python values are modelled by the type [pyval]; code that can raise
    returns a [result]; the collaborators the program does not implement
    (pynput's listeners and controllers, Qt's single-shot timers, the wall
    clock) appear as explicit inputs and as logged calls. *)

From Stdlib Require Import List String Ascii Bool Arith ZArith QArith Qabs Lia.
From Stdlib Require Import DecimalString.
Import ListNotations.

Set Warnings "-register-all".

Open Scope string_scope.
Open Scope list_scope.

(** ** The fragment of the Python runtime the program relies on *)

Module Py.

(** Exceptions.  [OSFailure] stands for whatever a pynput call raises when
    the operating system refuses it. *)
Inductive exn : Type :=
| KeyError (key : string)
| AttributeError (attr : string)
| TypeError
| ValueError
| IndexError
| OverflowError
| OSFailure.

Inductive result (A : Type) : Type :=
| Ok (a : A)
| Raise (e : exn).

Arguments Ok {A} a.
Arguments Raise {A} e.

Definition bind {A B : Type} (r : result A) (k : A -> result B) : result B :=
  match r with
  | Ok a => k a
  | Raise e => Raise e
  end.

Definition is_ok {A : Type} (r : result A) : bool :=
  match r with
  | Ok _ => true
  | Raise _ => false
  end.

(** Lookup in an insertion-ordered dictionary with string keys. *)
Fixpoint assoc {A : Type} (k : string) (d : list (string * A)) : option A :=
  match d with
  | [] => None
  | (k', v) :: d' => if String.eqb k k' then Some v else assoc k d'
  end.

(** [d[k] = v] on a dictionary: the binding is replaced in place when the key
    is present and appended otherwise. *)
Fixpoint dict_set {A : Type} (k : string) (v : A) (d : list (string * A))
  : list (string * A) :=
  match d with
  | [] => [(k, v)]
  | (k', v') :: d' =>
      if String.eqb k k' then (k, v) :: d' else (k', v') :: dict_set k v d'
  end.

(** The floats that are no rational numbers: [json.load] reads them from
    [Infinity], [-Infinity] and [NaN]. *)
Inductive nonfinite : Type :=
| PlusInfinity
| MinusInfinity
| NaN.

(** Python objects: what [json.load] produces, tuples, and the three kinds of
    pynput objects the program handles.  The finite floats are idealised as
    rationals.  A [PKeyCode] carries the fields of
    [pynput.keyboard.KeyCode]; [PKey] and [PButton] are members of the
    enumerations [pynput.keyboard.Key] and [pynput.mouse.Button], identified
    by their names.  A [PObject] is any other object (a bound method, a
    mapping proxy, ...), identified by a label: it is no number, cannot be
    iterated over or indexed, and has no attribute the program reads. *)
Inductive pyval : Type :=
| PNone
| PBool (b : bool)
| PInt (z : Z)
| PFloat (q : Q)
| PStr (s : string)
| PList (l : list pyval)
| PTuple (l : list pyval)
| PDict (d : list (string * pyval))
| PKeyCode (vk : option Z) (char : option string) (is_dead : bool)
| PKey (name : string)
| PButton (name : string)
| PObject (label : string)
| PNonFinite (f : nonfinite).

(** The numeric value of a finite number; booleans are integers in
    Python. *)
Definition num_of (v : pyval) : option Q :=
  match v with
  | PBool b => Some (if b then 1%Q else 0%Q)
  | PInt z => Some (inject_Z z)
  | PFloat q => Some q
  | _ => None
  end.

Definition option_eqb {A : Type} (eqb : A -> A -> bool) (a b : option A) : bool :=
  match a, b with
  | None, None => true
  | Some x, Some y => eqb x y
  | _, _ => false
  end.

(** [KeyCode.__eq__] of pynput: two key codes that both carry a character
    are compared by character and dead-key flag, all others by virtual key. *)
Definition KeyCode_eq (vk1 : option Z) (c1 : option string) (d1 : bool)
                      (vk2 : option Z) (c2 : option string) (d2 : bool) : bool :=
  match c1, c2 with
  | Some a, Some b => String.eqb a b && Bool.eqb d1 d2
  | _, _ => option_eqb Z.eqb vk1 vk2
  end.

(** [==] on the floats that are not finite: an infinity equals itself, and
    [nan] equals nothing. *)
Definition nonfinite_eq (f g : nonfinite) : bool :=
  match f, g with
  | PlusInfinity, PlusInfinity | MinusInfinity, MinusInfinity => true
  | _, _ => false
  end.

(** Python's [==].  Numbers compare by value, sequences element by element,
    dictionaries binding by binding whatever the order of insertion (a
    dictionary never repeats a key), enumeration members and other objects
    by identity. *)
Fixpoint py_eq (a b : pyval) {struct a} : bool :=
  let fix seq_eq (l m : list pyval) {struct l} : bool :=
    match l, m with
    | [], [] => true
    | x :: l', y :: m' => py_eq x y && seq_eq l' m'
    | _, _ => false
    end in
  let fix sub_eq (d e : list (string * pyval)) {struct d} : bool :=
    match d with
    | [] => true
    | (k, v) :: d' =>
        match assoc k e with
        | Some w => py_eq v w && sub_eq d' e
        | None => false
        end
    end in
  match num_of a, num_of b with
  | Some x, Some y => Qeq_bool x y
  | Some _, None | None, Some _ => false
  | None, None =>
      match a, b with
      | PNone, PNone => true
      | PStr s, PStr t => String.eqb s t
      | PList l, PList m => seq_eq l m
      | PTuple l, PTuple m => seq_eq l m
      | PDict d, PDict e => Nat.eqb (List.length d) (List.length e) && sub_eq d e
      | PKeyCode vk1 c1 d1, PKeyCode vk2 c2 d2 => KeyCode_eq vk1 c1 d1 vk2 c2 d2
      | PKey n, PKey m => String.eqb n m
      | PButton n, PButton m => String.eqb n m
      | PObject n, PObject m => String.eqb n m
      | PNonFinite f, PNonFinite g => nonfinite_eq f g
      | _, _ => false
      end
  end.

(** [x in [s1, s2, ...]] for a list of string literals. *)
Definition is_in (v : pyval) (names : list string) : bool :=
  existsb (fun s => py_eq v (PStr s)) names.

(** The truth value of an object, as [if v:] tests it. *)
Definition truthy (v : pyval) : bool :=
  match v with
  | PNone => false
  | PBool b => b
  | PInt z => negb (Z.eqb z 0)
  | PFloat q => negb (Qeq_bool q 0)
  | PStr s => negb (String.eqb s "")
  | PList l | PTuple l => negb (Nat.eqb (List.length l) 0)
  | PDict d => negb (Nat.eqb (List.length d) 0)
  | PKeyCode _ _ _ | PKey _ | PButton _ | PObject _ | PNonFinite _ => true
  end.

(** [v[k]] for a string key. *)
Definition getitem (v : pyval) (k : string) : result pyval :=
  match v with
  | PDict d =>
      match assoc k d with
      | Some x => Ok x
      | None => Raise (KeyError k)
      end
  | _ => Raise TypeError
  end.

(** [v.get(k, default)]. *)
Definition dict_get (v : pyval) (k : string) (default : pyval) : result pyval :=
  match v with
  | PDict d =>
      match assoc k d with
      | Some x => Ok x
      | None => Ok default
      end
  | _ => Raise (AttributeError "get")
  end.

Definition chars (s : string) : list pyval :=
  map (fun c => PStr (String c EmptyString)) (list_ascii_of_string s).

(** The items an object yields when it is iterated over. *)
Definition iterate (v : pyval) : result (list pyval) :=
  match v with
  | PList l | PTuple l => Ok l
  | PStr s => Ok (chars s)
  | PDict d => Ok (map (fun kv => PStr (fst kv)) d)
  | _ => Raise TypeError
  end.

(** [v[n]] for a literal index. *)
Definition getindex (v : pyval) (n : nat) : result pyval :=
  match v with
  | PList l | PTuple l =>
      match nth_error l n with
      | Some x => Ok x
      | None => Raise IndexError
      end
  | PStr s =>
      match nth_error (chars s) n with
      | Some x => Ok x
      | None => Raise IndexError
      end
  | PDict _ => Raise (KeyError "")
  | _ => Raise TypeError
  end.

(** [a, b, c, d = v]. *)
Definition unpack4 (v : pyval) : result (pyval * pyval * pyval * pyval) :=
  match iterate v with
  | Ok [a; b; c; d] => Ok (a, b, c, d)
  | Ok _ => Raise ValueError
  | Raise e => Raise e
  end.

(** [v.name]: only enumeration members have this attribute. *)
Definition attr_name (v : pyval) : result pyval :=
  match v with
  | PKey n | PButton n => Ok (PStr n)
  | _ => Raise (AttributeError "name")
  end.

(** [for x in l: f(x)] collecting the results, stopping at the first
    exception (a list comprehension). *)
Fixpoint traverse {A B : Type} (f : A -> result B) (l : list A) : result (list B) :=
  match l with
  | [] => Ok []
  | x :: l' =>
      match f x with
      | Ok y =>
          match traverse f l' with
          | Ok ys => Ok (y :: ys)
          | Raise e => Raise e
          end
      | Raise e => Raise e
      end
  end.

End Py.

Export Py.

Notation "x <- r ;; k" := (bind r (fun x => k))
  (at level 61, r at next level, right associativity).

(** ** What the installed pynput and the Python runtime fix

    The enumerations [keyboard.Key] and [mouse.Button] differ from one
    operating system to the next, and the text [str()] gives for an object
    other than the ones spelled out in [py_str] plays no role in the
    program: both are parameters of the model.  Besides its members, an
    enumeration class has the attributes of every class and of every
    enumeration ([mro], [__members__], [__name__], ...), which [getattr]
    finds as well: [Key_attributes] and [Button_attributes] give them with
    their values. *)

Record Platform : Type := {
  render : pyval -> string;
  Key_members : list string;
  Key_attributes : list (string * pyval);
  Button_members : list string;
  Button_attributes : list (string * pyval)
}.

(** The members pynput documents for every operating system, a few of the
    attributes every enumeration class has, and a platform made of them for
    the sample inputs below (none of which makes use of [render]). *)
Definition documented_keys : list string :=
  ["alt"; "alt_l"; "alt_r"; "alt_gr"; "backspace"; "caps_lock"; "cmd";
   "cmd_l"; "cmd_r"; "ctrl"; "ctrl_l"; "ctrl_r"; "delete"; "down"; "end";
   "enter"; "esc"; "f1"; "f2"; "f3"; "f4"; "f5"; "f6"; "f7"; "f8"; "f9";
   "f10"; "f11"; "f12"; "home"; "left"; "page_down"; "page_up"; "right";
   "shift"; "shift_l"; "shift_r"; "space"; "tab"; "up"].

Definition documented_buttons : list string :=
  ["unknown"; "left"; "middle"; "right"].

Definition class_attributes (cls : string) : list (string * pyval) :=
  [("__name__", PStr cls);
   ("mro", PObject (String.append cls ".mro"));
   ("__members__", PObject (String.append cls ".__members__"));
   ("_member_map_", PObject (String.append cls "._member_map_"))].

Definition desktop : Platform :=
  {| render := fun _ => "<object>";
     Key_members := documented_keys;
     Key_attributes := class_attributes "Key";
     Button_members := documented_buttons;
     Button_attributes := class_attributes "Button" |}.

(** ** The event codec (main.py, lines 8-68) *)

(** A recorded event is the tuple [(event_time, event_type, event_data)]. *)
Definition event : Type := pyval * pyval * pyval.

Definition time_of (e : event) : pyval := fst (fst e).
Definition kind_of (e : event) : pyval := snd (fst e).
Definition data_of (e : event) : pyval := snd e.

(** Equality of two event tuples, component by component. *)
Definition event_eq (a b : event) : bool :=
  let '(t1, k1, d1) := a in
  let '(t2, k2, d2) := b in
  py_eq t1 t2 && py_eq k1 k2 && py_eq d1 d2.

Definition decimal (z : Z) : string := NilZero.string_of_int (Z.to_int z).

Section Codec.

Variable P : Platform.

(** [str(v)].  A key code without a character prints its virtual key as
    [<vk>], which fails when it has no virtual key either. *)
Definition py_str (v : pyval) : result string :=
  match v with
  | PStr s => Ok s
  | PNone => Ok "None"
  | PBool b => Ok (if b then "True" else "False")
  | PKeyCode None None false => Raise TypeError
  | PKeyCode (Some vk) None false => Ok (String.append "<" (String.append (decimal vk) ">"))
  | _ => Ok (render P v)
  end.

(** [keyboard.KeyCode.from_char(c)]: the character is stored as text, and
    [None] stays [None]. *)
Definition from_char (c : pyval) : result pyval :=
  match c with
  | PNone => Ok (PKeyCode None None false)
  | _ => s <- py_str c ;; Ok (PKeyCode None (Some s) false)
  end.

(** [getattr(E, n)] on an enumeration class [E]: the member named [n];
    failing that, the attribute of that name the class has besides its
    members; and [AttributeError] when it has neither. *)
Definition getattr (member : string -> pyval) (members : list string)
                   (attributes : list (string * pyval)) (n : pyval)
  : result pyval :=
  match n with
  | PStr s =>
      if existsb (String.eqb s) members then Ok (member s)
      else
        match assoc s attributes with
        | Some v => Ok v
        | None => Raise (AttributeError s)
        end
  | _ => Raise TypeError
  end.

Definition serialize_key (key : pyval) : result pyval :=
  match key with
  | PKeyCode _ (Some c) _ =>
      Ok (PDict [("vtype", PStr "KeyCode"); ("char", PStr c)])
  | _ =>
      match attr_name key with
      | Ok n => Ok (PDict [("vtype", PStr "Key"); ("name", n)])
      | Raise (AttributeError _) =>
          s <- py_str key ;;
          Ok (PDict [("vtype", PStr "str"); ("value", PStr s)])
      | Raise e => Raise e
      end
  end.

Definition deserialize_key (data : pyval) : result pyval :=
  vtype <- getitem data "vtype" ;;
  if py_eq vtype (PStr "KeyCode") then
    c <- getitem data "char" ;; from_char c
  else if py_eq vtype (PStr "Key") then
    n <- getitem data "name" ;;
    getattr PKey (Key_members P) (Key_attributes P) n
  else
    v <- dict_get data "value" (PStr "") ;; from_char v.

Definition serialize_mouse_button (button : pyval) : result pyval :=
  attr_name button.

Definition deserialize_mouse_button (name : pyval) : result pyval :=
  getattr PButton (Button_members P) (Button_attributes P) name.

Definition serialize_event (ev : event) : result pyval :=
  let '(event_time, event_type, event_data) := ev in
  let fields := [("time", event_time); ("type", event_type)] in
  if is_in event_type ["key_press"; "key_release"] then
    d <- serialize_key event_data ;;
    Ok (PDict (dict_set "data" d fields))
  else if py_eq event_type (PStr "mouse_move") then
    x <- getindex event_data 0 ;;
    y <- getindex event_data 1 ;;
    Ok (PDict (dict_set "data" (PDict [("x", x); ("y", y)]) fields))
  else if py_eq event_type (PStr "mouse_click") then
    xybp <- unpack4 event_data ;;
    let '(x, y, button, pressed) := xybp in
    b <- serialize_mouse_button button ;;
    Ok (PDict (dict_set "data"
                 (PDict [("x", x); ("y", y); ("button", b); ("pressed", pressed)])
                 fields))
  else if py_eq event_type (PStr "mouse_scroll") then
    xydd <- unpack4 event_data ;;
    let '(x, y, dx, dy) := xydd in
    Ok (PDict (dict_set "data"
                 (PDict [("x", x); ("y", y); ("dx", dx); ("dy", dy)])
                 fields))
  else
    Ok (PDict (dict_set "data" event_data fields)).

Definition deserialize_event (event_dict : pyval) : result event :=
  event_time <- getitem event_dict "time" ;;
  event_type <- getitem event_dict "type" ;;
  data <- getitem event_dict "data" ;;
  if is_in event_type ["key_press"; "key_release"] then
    key <- deserialize_key data ;;
    Ok (event_time, event_type, key)
  else if py_eq event_type (PStr "mouse_move") then
    x <- getitem data "x" ;;
    y <- getitem data "y" ;;
    Ok (event_time, event_type, PTuple [x; y])
  else if py_eq event_type (PStr "mouse_click") then
    name <- getitem data "button" ;;
    button <- deserialize_mouse_button name ;;
    x <- getitem data "x" ;;
    y <- getitem data "y" ;;
    pressed <- getitem data "pressed" ;;
    Ok (event_time, event_type, PTuple [x; y; button; pressed])
  else if py_eq event_type (PStr "mouse_scroll") then
    x <- getitem data "x" ;;
    y <- getitem data "y" ;;
    dx <- getitem data "dx" ;;
    dy <- getitem data "dy" ;;
    Ok (event_time, event_type, PTuple [x; y; dx; dy])
  else
    Ok (event_time, event_type, data).

(** [[serialize_event(e) for e in events]] and
    [[deserialize_event(e) for e in json_events]] (lines 343 and 360). *)
Definition serialize_events (events : list event) : result pyval :=
  l <- traverse serialize_event events ;; Ok (PList l).

Definition deserialize_events (json_events : pyval) : result (list event) :=
  items <- iterate json_events ;; traverse deserialize_event items.

(** [decode(encode(e)) == e]. *)
Definition roundtrip (e : event) : bool :=
  match serialize_event e with
  | Ok j =>
      match deserialize_event j with
      | Ok e' => event_eq e' e
      | Raise _ => false
      end
  | Raise _ => false
  end.

End Codec.

(** ** The recorder (main.py, lines 70-133) *)

(** A pynput listener object, as far as the recorder is concerned. *)
Inductive listener : Type :=
| Absent
| Created
| Running
| Halted.

Record MacroRecorder : Type := {
  events : list event;
  recording : bool;
  start_time : option Q;
  hotkey_triggered : bool;
  on_stop : bool;
  keyboard_listener : listener;
  mouse_listener : listener
}.

(** [self.stop_hotkey = keyboard.Key.f12], never reassigned. *)
Definition stop_hotkey : pyval := PKey "f12".

(** [MacroRecorder()]; [on_stop] is assigned by the owner of the recorder. *)
Definition new_recorder (callback : bool) : MacroRecorder :=
  {| events := []; recording := false; start_time := None;
     hotkey_triggered := false; on_stop := callback;
     keyboard_listener := Absent; mouse_listener := Absent |}.

(** The callables the recorder hands to [QTimer.singleShot]. *)
Inductive slot : Type :=
| StopFromHotkey
| NotifyStopped.

(** The calls the recorder makes on its collaborators. *)
Inductive rec_call : Type :=
| KeyboardStart
| MouseStart
| KeyboardStop
| MouseStop
| SingleShot (s : slot)
| OnStop (evs : list event).

(** A capture session: the recorder, the single-shot timers Qt still has to
    run, and the calls made so far. *)
Record session : Type := {
  recorder : MacroRecorder;
  timers : list slot;
  calls : list rec_call
}.

Definition new_session (callback : bool) : session :=
  {| recorder := new_recorder callback; timers := []; calls := [] |}.

(** Whether starting each listener installs its hook or raises. *)
Record hooks : Type := {
  keyboard_hook : bool;
  mouse_hook : bool
}.

Definition with_listeners (r : MacroRecorder) (k m : listener) : MacroRecorder :=
  {| events := events r; recording := recording r; start_time := start_time r;
     hotkey_triggered := hotkey_triggered r; on_stop := on_stop r;
     keyboard_listener := k; mouse_listener := m |}.

Definition start_recording (h : hooks) (now : Q) (s : session)
  : session * result unit :=
  let r := recorder s in
  let r1 := {| events := []; recording := true; start_time := Some now;
               hotkey_triggered := false; on_stop := on_stop r;
               keyboard_listener := keyboard_listener r;
               mouse_listener := mouse_listener r |} in
  let r2 := with_listeners r1 Created Created in
  if keyboard_hook h then
    let r3 := with_listeners r2 Running Created in
    let c3 := calls s ++ [KeyboardStart] in
    if mouse_hook h then
      ({| recorder := with_listeners r3 Running Running; timers := timers s;
          calls := c3 ++ [MouseStart] |}, Ok tt)
    else
      ({| recorder := r3; timers := timers s; calls := c3 |}, Raise OSFailure)
  else
    ({| recorder := r2; timers := timers s; calls := calls s |}, Raise OSFailure).

Definition stop_recording (s : session) : session * list event :=
  let r := recorder s in
  if negb (recording r) then (s, events r)
  else
    let r' := {| events := events r; recording := false;
                 start_time := start_time r;
                 hotkey_triggered := hotkey_triggered r; on_stop := on_stop r;
                 keyboard_listener := Halted; mouse_listener := Halted |} in
    let c := calls s ++ [KeyboardStop; MouseStop] in
    if on_stop r then
      ({| recorder := r'; timers := timers s ++ [NotifyStopped];
          calls := c ++ [SingleShot NotifyStopped] |}, events r)
    else
      ({| recorder := r'; timers := timers s; calls := c |}, events r).

Definition stop_recording_from_hotkey (s : session) : session :=
  if recording (recorder s) then fst (stop_recording s) else s.

(** [now] is the value [time.time()] returns inside the handler. *)
Definition record_event (now : Q) (event_type : string) (event_data : pyval)
                        (s : session) : result session :=
  let r := recorder s in
  if negb (recording r) then Ok s
  else
    match start_time r with
    | None => Raise TypeError
    | Some t0 =>
        let event_time := PFloat (now - t0) in
        Ok {| recorder :=
                {| events := events r ++ [(event_time, PStr event_type, event_data)];
                   recording := recording r; start_time := start_time r;
                   hotkey_triggered := hotkey_triggered r; on_stop := on_stop r;
                   keyboard_listener := keyboard_listener r;
                   mouse_listener := mouse_listener r |};
              timers := timers s; calls := calls s |}
    end.

Definition on_key_press (now : Q) (key : pyval) (s : session) : result session :=
  if py_eq key stop_hotkey then
    let r := recorder s in
    if negb (hotkey_triggered r) then
      Ok {| recorder :=
              {| events := events r; recording := recording r;
                 start_time := start_time r; hotkey_triggered := true;
                 on_stop := on_stop r;
                 keyboard_listener := keyboard_listener r;
                 mouse_listener := mouse_listener r |};
            timers := timers s ++ [StopFromHotkey];
            calls := calls s ++ [SingleShot StopFromHotkey] |}
    else Ok s
  else record_event now "key_press" key s.

Definition on_key_release (now : Q) (key : pyval) (s : session) : result session :=
  if py_eq key stop_hotkey then Ok s
  else record_event now "key_release" key s.

Definition on_click (now : Q) (x y button pressed : pyval) (s : session)
  : result session :=
  record_event now "mouse_click" (PTuple [x; y; button; pressed]) s.

Definition on_scroll (now : Q) (x y dx dy : pyval) (s : session) : result session :=
  record_event now "mouse_scroll" (PTuple [x; y; dx; dy]) s.

(** What can happen to a session once it has started: a notification of the
    operating system reaches a listener, the owner of the recorder calls
    [stop_recording], or Qt runs the oldest pending single-shot timer. *)
Inductive input : Type :=
| KeyPressed (now : Q) (key : pyval)
| KeyReleased (now : Q) (key : pyval)
| PointerMoved (now : Q) (x y : pyval)
| Clicked (now : Q) (x y button pressed : pyval)
| Scrolled (now : Q) (x y dx dy : pyval)
| StopCalled
| TimerFired.

(** An exception raised inside a listener callback leaves the session as it
    was. *)
Definition settle (s : session) (r : result session) : session :=
  match r with
  | Ok s' => s'
  | Raise _ => s
  end.

(** The listeners are built with [on_press], [on_release], [on_click] and
    [on_scroll] only (lines 85-92): a pointer move reaches no callback. *)
Definition step (s : session) (i : input) : session :=
  match i with
  | KeyPressed now key => settle s (on_key_press now key s)
  | KeyReleased now key => settle s (on_key_release now key s)
  | PointerMoved _ _ _ => s
  | Clicked now x y button pressed => settle s (on_click now x y button pressed s)
  | Scrolled now x y dx dy => settle s (on_scroll now x y dx dy s)
  | StopCalled => fst (stop_recording s)
  | TimerFired =>
      match timers s with
      | [] => s
      | StopFromHotkey :: rest =>
          stop_recording_from_hotkey
            {| recorder := recorder s; timers := rest; calls := calls s |}
      | NotifyStopped :: rest =>
          {| recorder := recorder s; timers := rest;
             calls := calls s ++ [OnStop (events (recorder s))] |}
      end
  end.

Definition run (s : session) (inputs : list input) : session :=
  fold_left step inputs s.

(** The session right after a successful [start_recording], and a capture
    session: a successful [start_recording], then the inputs. *)
Definition started (callback : bool) (now : Q) : session :=
  fst (start_recording {| keyboard_hook := true; mouse_hook := true |}
                       now (new_session callback)).

Definition capture (callback : bool) (now : Q) (inputs : list input) : session :=
  run (started callback now) inputs.

(** ** The player (main.py, lines 135-173) *)

(** The synthesis calls of pynput's controllers.  [MouseMove] is the call
    that moves the pointer. *)
Inductive os_call : Type :=
| KbPress (key : pyval)
| KbRelease (key : pyval)
| MousePress (button : pyval)
| MouseRelease (button : pyval)
| MouseScroll (dx dy : pyval)
| MouseMove (x y : pyval).

Inductive effect : Type :=
| Sleep (seconds : Q)
| Synth (c : os_call)
| Printed (message : string).

(** What the player observes while it works on the event of index [i]: the
    seconds elapsed since playback started, the value of [self._stop] at the
    top of the iteration and after the wait, and whether the operating system
    refuses the synthesis call of that iteration.  Two limits of the runtime
    come with it: the longest time [time.sleep] accepts (some 9.2e9 seconds
    where it counts nanoseconds in 64 bits), and the largest magnitude of an
    integer that converts to a float. *)
Record player_env : Type := {
  elapsed : nat -> Q;
  stop_at_top : nat -> bool;
  stop_after_wait : nat -> bool;
  refused : nat -> bool;
  sleep_limit : Q;
  float_limit : Q
}.

Inductive ending : Type :=
| Finished
| Cancelled
| Crashed (e : exn).

Definition positive (q : Q) : bool := negb (Qle_bool q 0).

(** Lines 155-173: the synthesis of one event, with the exception that
    escapes it, if any. *)
Definition synthesize (refuse : bool) (event_type event_data : pyval)
  : list effect * option exn :=
  if py_eq event_type (PStr "key_press") then
    if refuse then
      ([Synth (KbPress event_data); Printed "Error on key press"], None)
    else ([Synth (KbPress event_data)], None)
  else if py_eq event_type (PStr "key_release") then
    if refuse then
      ([Synth (KbRelease event_data); Printed "Error on key release"], None)
    else ([Synth (KbRelease event_data)], None)
  else if py_eq event_type (PStr "mouse_click") then
    match unpack4 event_data with
    | Raise e => ([], Some e)
    | Ok (x, y, button, pressed) =>
        let c := if truthy pressed then MousePress button else MouseRelease button in
        ([Synth c], if refuse then Some OSFailure else None)
    end
  else if py_eq event_type (PStr "mouse_scroll") then
    match unpack4 event_data with
    | Raise e => ([], Some e)
    | Ok (x, y, dx, dy) =>
        ([Synth (MouseScroll dx dy)], if refuse then Some OSFailure else None)
    end
  else ([], None).

(** Line 149: [event_time - (time.time() - start_time)], a float.  An
    integer is converted to a float first, which fails when it is too large;
    an infinity and [nan] stay what they are; what is no number cannot be
    subtracted from. *)
Definition subtract_elapsed (env : player_env) (i : nat) (event_time : pyval)
  : result pyval :=
  match event_time with
  | PFloat q => Ok (PFloat (q - elapsed env i))
  | PBool b => Ok (PFloat ((if b then 1 else 0) - elapsed env i))
  | PInt z =>
      if Qle_bool (Qabs (inject_Z z)) (float_limit env) then
        Ok (PFloat (inject_Z z - elapsed env i))
      else Raise OverflowError
  | PNonFinite f => Ok (PNonFinite f)
  | _ => Raise TypeError
  end.

(** [time_to_wait > 0] for a float: false of [nan] and of [-inf]. *)
Definition above_zero (time_to_wait : pyval) : bool :=
  match time_to_wait with
  | PFloat q => positive q
  | PNonFinite PlusInfinity => true
  | _ => false
  end.

(** [time.sleep(time_to_wait)] for a float above zero: a time beyond the
    limit, infinite or not, is refused with [OverflowError] before any
    sleeping. *)
Definition sleep (env : player_env) (time_to_wait : pyval) : result (list effect) :=
  match time_to_wait with
  | PFloat q =>
      if Qle_bool q (sleep_limit env) then Ok [Sleep q] else Raise OverflowError
  | _ => Raise OverflowError
  end.

(** Lines 149-151: the wait before the event of index [i]. *)
Definition wait_before (env : player_env) (i : nat) (event_time : pyval)
  : result (list effect) :=
  time_to_wait <- subtract_elapsed env i event_time ;;
  if above_zero time_to_wait then sleep env time_to_wait else Ok [].

(** The loop of [MacroPlayer.play], from the event of index [i] on.  The
    wait stands outside the [try] blocks: an exception it raises ends the
    run. *)
Fixpoint play_from (env : player_env) (i : nat) (evs : list event)
  : list effect * ending :=
  match evs with
  | [] => ([], Finished)
  | (event_time, event_type, event_data) :: rest =>
      if stop_at_top env i then ([], Cancelled)
      else
        match wait_before env i event_time with
        | Raise e => ([], Crashed e)
        | Ok waited =>
            if stop_after_wait env i then (waited, Cancelled)
            else
              match synthesize (refused env i) event_type event_data with
              | (out, Some e) => (waited ++ out, Crashed e)
              | (out, None) =>
                  let (later, en) := play_from env (S i) rest in
                  (waited ++ out ++ later, en)
              end
        end
  end.

Definition play (env : player_env) (evs : list event) : list effect * ending :=
  play_from env 0 evs.

(** The synthesis calls among the effects of a run. *)
Fixpoint synth_calls (out : list effect) : list os_call :=
  match out with
  | [] => []
  | Synth c :: rest => c :: synth_calls rest
  | _ :: rest => synth_calls rest
  end.

(** ** Loading a macro and playing it (lines 356-363 and 384-394)

    [play_macro] decodes every entry of the parsed file; any exception ends
    it with an error message before a player exists.  The spec calls this
    failure [MalformedMacro]. *)
Inductive run_result : Type :=
| Played (out : list effect) (en : ending)
| MalformedMacro (cause : exn).

Definition play_macro (P : Platform) (env : player_env) (json_events : pyval)
  : run_result :=
  match deserialize_events P json_events with
  | Ok events_to_play =>
      let (out, en) := play env events_to_play in Played out en
  | Raise e => MalformedMacro e
  end.

Definition effects_of (r : run_result) : list effect :=
  match r with
  | Played out _ => out
  | MalformedMacro _ => []
  end.

(** ** Macro files (main.py, lines 333-363)

    A file holds the text [json.dump] wrote, or a text that [json.load]
    cannot read: the empty text [open(filename, "w")] leaves, or the part
    [json.dump] wrote before it raised.  A readable text is represented by
    the value [json.load] returns for it. *)

Inductive content : Type :=
| Document (j : pyval)
| Unreadable.

(** The files of the disk, by path. *)
Definition files : Type := list (string * content).

(** What [json.load] reads back from what [json.dump] writes: tuples are
    written as arrays, the floats that are not finite as [Infinity],
    [-Infinity] and [NaN], and an object that is no number, string, boolean,
    [None], list, tuple or dictionary cannot be written. *)
Fixpoint json_dump (v : pyval) : result pyval :=
  let fix items (l : list pyval) : result (list pyval) :=
    match l with
    | [] => Ok []
    | x :: l' =>
        match json_dump x with
        | Ok y =>
            match items l' with
            | Ok ys => Ok (y :: ys)
            | Raise e => Raise e
            end
        | Raise e => Raise e
        end
    end in
  let fix bindings (d : list (string * pyval)) : result (list (string * pyval)) :=
    match d with
    | [] => Ok []
    | (k, x) :: d' =>
        match json_dump x with
        | Ok y =>
            match bindings d' with
            | Ok ys => Ok ((k, y) :: ys)
            | Raise e => Raise e
            end
        | Raise e => Raise e
        end
    end in
  match v with
  | PNone | PBool _ | PInt _ | PFloat _ | PStr _ | PNonFinite _ => Ok v
  | PList l | PTuple l =>
      match items l with
      | Ok l' => Ok (PList l')
      | Raise e => Raise e
      end
  | PDict d =>
      match bindings d with
      | Ok d' => Ok (PDict d')
      | Raise e => Raise e
      end
  | PKeyCode _ _ _ | PKey _ | PButton _ | PObject _ => Raise TypeError
  end.

(** [self.macros_folder]. *)
Definition macros_folder : string := "macros".

(** How [save_macro] ends. *)
Inductive save_result : Type :=
| NoMacro
| Dismissed
| Saved (filename : string)
| SaveFailed (e : exn).

(** How the loading part of [play_macro] ends. *)
Inductive load_result : Type :=
| NoSelection
| Loaded (events_to_play : list event)
| LoadFailed (e : exn).

Section Files.

Variable P : Platform.

(** [os.path.join], which depends on the operating system. *)
Variable join : string -> string -> string.

(** Lines 333-348.  [answer] is what the input dialog returns, [writable]
    whether [open(filename, "w")] succeeds.  The file is opened, and so
    emptied, before the events are encoded. *)
Definition save_macro (events : list event) (answer : string * bool)
                      (writable : bool) (disk : files) : files * save_result :=
  match events with
  | [] => (disk, NoMacro)
  | _ :: _ =>
      let '(name, ok) := answer in
      if ok && negb (name =? "")%string then
        let filename := join macros_folder (String.append name ".json") in
        if writable then
          let opened := dict_set filename Unreadable disk in
          match traverse (serialize_event P) events with
          | Ok json_events =>
              match json_dump (PList json_events) with
              | Ok text => (dict_set filename (Document text) disk, Saved filename)
              | Raise e => (opened, SaveFailed e)
              end
          | Raise e => (opened, SaveFailed e)
          end
        else (disk, SaveFailed OSFailure)
      else (disk, Dismissed)
  end.

(** Lines 351-363: the file chosen in the list is read and decoded.
    [macro_file] is the text of the list's current item. *)
Definition load_macro (macro_file : string) (disk : files) : load_result :=
  if ((macro_file =? "") || (macro_file =? "No macros found"))%string then
    NoSelection
  else
    match assoc (join macros_folder macro_file) disk with
    | None => LoadFailed OSFailure
    | Some Unreadable => LoadFailed ValueError
    | Some (Document json_events) =>
        match deserialize_events P json_events with
        | Ok events_to_play => Loaded events_to_play
        | Raise e => LoadFailed e
        end
    end.

End Files.

(** ** Vocabulary of the specification *)

(** *** Events and keys *)

Definition is_number (v : pyval) : bool :=
  match v with
  | PInt _ | PFloat _ => true
  | _ => false
  end.

Definition member (n : string) (names : list string) : bool :=
  existsb (String.eqb n) names.

(** A key that the codec stores under its own variant: a member of
    [keyboard.Key], or a key code with a character that is not a dead key. *)
Definition faithful_key (P : Platform) (key : pyval) : bool :=
  match key with
  | PKey n => member n (Key_members P)
  | PKeyCode _ (Some _) false => true
  | _ => false
  end.

(** An event of one of the five kinds with the payload of section 3 of the
    specification, its key (if any) being a faithful one. *)
Definition faithful (P : Platform) (e : event) : bool :=
  let '(t, kind, d) := e in
  is_number t &&
  match kind with
  | PStr k =>
      if ((k =? "key_press") || (k =? "key_release"))%string then
        faithful_key P d
      else if (k =? "mouse_move")%string then
        match d with
        | PTuple [x; y] => is_number x && is_number y
        | _ => false
        end
      else if (k =? "mouse_click")%string then
        match d with
        | PTuple [x; y; PButton b; PBool _] =>
            is_number x && is_number y && member b (Button_members P)
        | _ => false
        end
      else if (k =? "mouse_scroll")%string then
        match d with
        | PTuple [x; y; dx; dy] =>
            is_number x && is_number y && is_number dx && is_number dy
        | _ => false
        end
      else false
  | _ => false
  end.

(** Equality of two event sequences. *)
Fixpoint events_eq (l m : list event) : bool :=
  match l, m with
  | [], [] => true
  | a :: l', b :: m' => event_eq a b && events_eq l' m'
  | _, _ => false
  end.

(** [decode(encode(s)) == s] for a sequence. *)
Definition roundtrip_all (P : Platform) (s : list event) : bool :=
  match serialize_events P s with
  | Ok j =>
      match deserialize_events P j with
      | Ok s' => events_eq s' s
      | Raise _ => false
      end
  | Raise _ => false
  end.

(** What [json.load] can produce. *)
Fixpoint is_json (v : pyval) : bool :=
  match v with
  | PNone | PBool _ | PInt _ | PFloat _ | PStr _ | PNonFinite _ => true
  | PList l => forallb is_json l
  | PDict d => forallb (fun kv => is_json (snd kv)) d
  | _ => false
  end.

(** What a keyboard listener of pynput passes to its callbacks: a member of
    [keyboard.Key], a key code that has a character or a virtual key, or
    [None] for a key it does not know. *)
Definition listener_key (key : pyval) : bool :=
  match key with
  | PNone | PKey _ => true
  | PKeyCode _ (Some _) _ => true
  | PKeyCode (Some _) None false => true
  | _ => false
  end.

(** *** Persisted entries *)

Definition known_kinds : list string :=
  ["key_press"; "key_release"; "mouse_move"; "mouse_click"; "mouse_scroll"].

(** The field [k] of a JSON object. *)
Definition field (v : pyval) (k : string) : option pyval :=
  match v with
  | PDict d => assoc k d
  | _ => None
  end.

Definition lacks (v : pyval) (k : string) : bool :=
  match field v k with
  | None => true
  | Some _ => false
  end.

(** An entry of a macro file misses a required field: [time], [type] or
    [data]; the variant tag of a key, the character of a literal key, the
    name of a symbolic key; a coordinate, the button, the pressed flag or a
    scroll delta of a pointer event. *)
Definition missing_required (entry : pyval) : bool :=
  match field entry "time", field entry "type", field entry "data" with
  | Some _, Some kind, Some data =>
      if is_in kind ["key_press"; "key_release"] then
        match field data "vtype" with
        | None => true
        | Some vtype =>
            if py_eq vtype (PStr "KeyCode") then lacks data "char"
            else if py_eq vtype (PStr "Key") then lacks data "name"
            else false
        end
      else if py_eq kind (PStr "mouse_move") then
        lacks data "x" || lacks data "y"
      else if py_eq kind (PStr "mouse_click") then
        lacks data "x" || lacks data "y" || lacks data "button"
        || lacks data "pressed"
      else if py_eq kind (PStr "mouse_scroll") then
        lacks data "x" || lacks data "y" || lacks data "dx" || lacks data "dy"
      else false
  | _, _, _ => true
  end.

Definition names_member (n : pyval) (members : list string) : bool :=
  match n with
  | PStr s => member s members
  | _ => false
  end.

(** An entry carries a symbolic key name or a button name that is not the
    name of a member of the enumeration. *)
Definition unrecognized_name (P : Platform) (entry : pyval) : bool :=
  match field entry "type", field entry "data" with
  | Some kind, Some data =>
      if is_in kind ["key_press"; "key_release"] then
        match field data "vtype", field data "name" with
        | Some vtype, Some n =>
            py_eq vtype (PStr "Key") && negb (names_member n (Key_members P))
        | _, _ => false
        end
      else if py_eq kind (PStr "mouse_click") then
        match field data "button" with
        | Some n => negb (names_member n (Button_members P))
        | None => false
        end
      else false
  | _, _ => false
  end.

(** *** Capture *)

(** A recorded press or release of the stop key. *)
Definition is_stop_key_event (e : event) : bool :=
  is_in (kind_of e) ["key_press"; "key_release"] && py_eq (data_of e) stop_hotkey.

(** What the recorder may append: an event of one of the four kinds it has
    a callback for, the stop key excepted. *)
Definition recordable (e : event) : bool :=
  is_in (kind_of e) ["key_press"; "key_release"; "mouse_click"; "mouse_scroll"]
  && negb (is_stop_key_event e).

(** The stopped transitions of a session: the times the listeners were
    stopped. *)
Fixpoint count_stops (l : list rec_call) : nat :=
  match l with
  | [] => 0
  | KeyboardStop :: rest => S (count_stops rest)
  | _ :: rest => count_stops rest
  end.

(** The finalized macros of a session: the times the [on_stop] callback was
    scheduled. *)
Fixpoint count_finalized (l : list rec_call) : nat :=
  match l with
  | [] => 0
  | SingleShot NotifyStopped :: rest => S (count_finalized rest)
  | _ :: rest => count_finalized rest
  end.

(** The times the stop handler of the hot key was scheduled. *)
Fixpoint count_hotkey_shots (l : list rec_call) : nat :=
  match l with
  | [] => 0
  | SingleShot StopFromHotkey :: rest => S (count_hotkey_shots rest)
  | _ :: rest => count_hotkey_shots rest
  end.

(** The input makes the stop path run: a call of [stop_recording], or the
    timer that runs [stop_recording_from_hotkey]. *)
Definition runs_stop_path (s : session) (i : input) : bool :=
  match i with
  | StopCalled => true
  | TimerFired =>
      match timers s with
      | StopFromHotkey :: _ => true
      | _ => false
      end
  | _ => false
  end.

(** How many times the stop path runs while [inputs] are handled. *)
Fixpoint stop_path_runs (s : session) (inputs : list input) : nat :=
  match inputs with
  | [] => 0
  | i :: rest =>
      ((if runs_stop_path s i then 1 else 0) + stop_path_runs (step s i) rest)%nat
  end.


(** What holds of a session from [start_recording] on, [callback] telling
    whether the owner registered [on_stop]. *)
Definition session_inv (callback : bool) (s : session) : Prop :=
  on_stop (recorder s) = callback /\
  forallb recordable (events (recorder s)) = true /\
  count_stops (calls s) = (if recording (recorder s) then 0 else 1)%nat /\
  count_finalized (calls s) = (if callback then count_stops (calls s) else 0%nat) /\
  count_hotkey_shots (calls s)
    = (if hotkey_triggered (recorder s) then 1 else 0)%nat.

(** *** Playback *)

(** The event is of the kind named [k]. *)
Definition has_kind (e : event) (k : string) : bool :=
  match kind_of e with
  | PStr s => (s =? k)%string
  | _ => false
  end.

(** The synthesis call section 4.3 of the specification prescribes for an
    event: key down for a key press, key up for a key release, button down
    or up for a click according to its pressed flag, a scroll by the
    recorded deltas for a scroll, and none for any other event. *)
Definition intended_calls (e : event) : list os_call :=
  if has_kind e "key_press" then [KbPress (data_of e)]
  else if has_kind e "key_release" then [KbRelease (data_of e)]
  else if has_kind e "mouse_click" then
    match unpack4 (data_of e) with
    | Ok (_, _, button, pressed) =>
        [if truthy pressed then MousePress button else MouseRelease button]
    | Raise _ => []
    end
  else if has_kind e "mouse_scroll" then
    match unpack4 (data_of e) with
    | Ok (_, _, dx, dy) => [MouseScroll dx dy]
    | Raise _ => []
    end
  else [].

(** What is logged when the call of an event is refused and the run goes
    on: only the failure of a key call is. *)
Definition error_report (e : event) : list effect :=
  if has_kind e "key_press" then [Printed "Error on key press"]
  else if has_kind e "key_release" then [Printed "Error on key release"]
  else [].

(** The waits the specification prescribes for a run over [evs] that starts
    at index [i]: before each event, its timestamp minus the time elapsed
    since the start of the playback, when that is more than zero, and no
    wait at all otherwise. *)
Fixpoint waits (env : player_env) (i : nat) (evs : list event) : list effect :=
  match evs with
  | [] => []
  | e :: rest =>
      match num_of (time_of e) with
      | Some timestamp =>
          match (timestamp - elapsed env i ?= 0)%Q with
          | Gt => [Sleep (timestamp - elapsed env i)]
          | _ => []
          end
      | None => []
      end ++ waits env (S i) rest
  end.

(** The effects the specification prescribes for a run over [evs] from
    index [i] on that goes through every event: for each event in turn, its
    wait, then its call, then the report of the call's failure. *)
Fixpoint replay (env : player_env) (i : nat) (evs : list event) : list effect :=
  match evs with
  | [] => []
  | e :: rest =>
      waits env i [e]
        ++ map Synth (intended_calls e)
        ++ (if refused env i then error_report e else [])
        ++ replay env (S i) rest
  end.

(** The timestamp of the event is a finite number the player can wait for
    at index [i]: an integer converts to a float, and the time left until
    the event is one [time.sleep] accepts. *)
Definition schedulable (env : player_env) (i : nat) (e : event) : bool :=
  match num_of (time_of e) with
  | Some timestamp =>
      match time_of e with
      | PInt z => Qle_bool (Qabs (inject_Z z)) (float_limit env)
      | _ => true
      end
      && Qle_bool (timestamp - elapsed env i) (sleep_limit env)
  | None => false
  end.

(** The [Sleep] effects of a run. *)
Fixpoint sleeps (out : list effect) : list effect :=
  match out with
  | [] => []
  | Sleep d :: rest => Sleep d :: sleeps rest
  | _ :: rest => sleeps rest
  end.

Definition timed (e : event) : bool :=
  match num_of (time_of e) with
  | Some _ => true
  | None => false
  end.

(** No cancellation is observed during the iterations [i, i + n). *)
Fixpoint unstopped (env : player_env) (i n : nat) : bool :=
  match n with
  | O => true
  | S n' =>
      negb (stop_at_top env i) && negb (stop_after_wait env i) &&
      unstopped env (S i) n'
  end.

Definition is_move (c : os_call) : bool :=
  match c with
  | MouseMove _ _ => true
  | _ => false
  end.

(** ** Sample inputs *)

(** The key pad's 5 with Num Lock off, as X11 reports it: a key code with a
    virtual key and no character. *)
Definition keypad_begin : pyval := PKeyCode (Some 65437%Z) None false.

Definition sample_macro : list event :=
  [ (PFloat (10 # 100), PStr "key_press", PKeyCode None (Some "a") false);
    (PFloat (35 # 100), PStr "key_press", PKeyCode (Some 66%Z) (Some "b") false);
    (PFloat (40 # 100), PStr "key_release", PKeyCode None (Some "a") false);
    (PFloat (50 # 100), PStr "mouse_click",
       PTuple [PInt 10; PInt 20; PButton "left"; PBool true]);
    (PFloat (60 # 100), PStr "mouse_scroll",
       PTuple [PInt 10; PInt 20; PInt 0; PInt (-1)]);
    (PFloat (70 # 100), PStr "key_press", PKey "f5") ].

(** The payload the recorder stores for [keypad_begin]. *)
Definition stored_keypad_begin : list (string * pyval) :=
  [("vtype", PStr "str"); ("value", PStr "<65437>")].

(** The limits of a runtime that counts the nanoseconds of a sleep in 64
    bits and whose floats are IEEE doubles. *)
Definition longest_sleep : Q := 9223372036.
Definition largest_float : Q := inject_Z (2 ^ 1024).

(** An environment that is always on schedule, never cancels, and whose
    operating system refuses the synthesis call of the first event only. *)
Definition refuses_first : player_env :=
  {| elapsed := fun _ => 0;
     stop_at_top := fun _ => false;
     stop_after_wait := fun _ => false;
     refused := fun i => Nat.eqb i 0;
     sleep_limit := longest_sleep;
     float_limit := largest_float |}.

Definition click_left : event :=
  (PFloat 0, PStr "mouse_click", PTuple [PInt 10; PInt 20; PButton "left"; PBool true]).

Definition press_a : event :=
  (PFloat 0, PStr "key_press", PKeyCode None (Some "a") false).

(** An environment that is a quarter of a second into the playback at every
    reading of the clock. *)
Definition quarter_second : player_env :=
  {| elapsed := fun _ => 1 # 4;
     stop_at_top := fun _ => false;
     stop_after_wait := fun _ => false;
     refused := fun _ => false;
     sleep_limit := longest_sleep;
     float_limit := largest_float |}.

(** As [quarter_second], with a cancellation that arrives during the wait of
    the third event. *)
Definition cancel_in_third_wait : player_env :=
  {| elapsed := fun _ => 1 # 4;
     stop_at_top := fun i => Nat.ltb 2 i;
     stop_after_wait := fun i => Nat.leb 2 i;
     refused := fun _ => false;
     sleep_limit := longest_sleep;
     float_limit := largest_float |}.

Definition first_two : list event := firstn 2 sample_macro.

Definition third : event :=
  (PFloat (40 # 100), PStr "key_release", PKeyCode None (Some "a") false).

Definition after_third : list event := skipn 3 sample_macro.

Definition good_entry : pyval :=
  PDict [("time", PFloat (10 # 100)); ("type", PStr "key_press");
         ("data", PDict [("vtype", PStr "KeyCode"); ("char", PStr "a")])].

Definition entry_without_type : pyval :=
  PDict [("time", PFloat (35 # 100));
         ("data", PDict [("vtype", PStr "KeyCode"); ("char", PStr "b")])].

Definition entry_of_a_later_version : pyval :=
  PDict [("time", PFloat (35 # 100)); ("type", PStr "gamepad_button");
         ("data", PDict [("id", PInt 3)])].

(** The same entry, scheduled ten thousand million seconds after the start
    of the playback. *)
Definition entry_far_ahead : pyval :=
  PDict [("time", PFloat 10000000000); ("type", PStr "gamepad_button");
         ("data", PDict [("id", PInt 3)])].

(** Entries that name, as a key and as a button, an attribute every
    enumeration class has. *)
Definition entry_named_mro : pyval :=
  PDict [("time", PFloat (10 # 100)); ("type", PStr "key_press");
         ("data", PDict [("vtype", PStr "Key"); ("name", PStr "mro")])].

Definition click_named_mro : pyval :=
  PDict [("time", PFloat (20 # 100)); ("type", PStr "mouse_click");
         ("data", PDict [("x", PInt 10); ("y", PInt 20);
                         ("button", PStr "mro"); ("pressed", PBool true)])].



(** ** Vocabulary of the further properties *)

(** *** Capture *)

(** The event a notification is captured as while the recorder records,
    [t0] being the start epoch: none for the stop key and for a pointer
    move. *)
Definition captured_as (t0 : Q) (i : input) : list event :=
  match i with
  | KeyPressed now key =>
      if py_eq key stop_hotkey then []
      else [(PFloat (now - t0), PStr "key_press", key)]
  | KeyReleased now key =>
      if py_eq key stop_hotkey then []
      else [(PFloat (now - t0), PStr "key_release", key)]
  | Clicked now x y button pressed =>
      [(PFloat (now - t0), PStr "mouse_click", PTuple [x; y; button; pressed])]
  | Scrolled now x y dx dy =>
      [(PFloat (now - t0), PStr "mouse_scroll", PTuple [x; y; dx; dy])]
  | _ => []
  end.

(** The reading of the clock a notification comes with. *)
Definition clock_of (i : input) : option Q :=
  match i with
  | KeyPressed now _ | KeyReleased now _ | PointerMoved now _ _
  | Clicked now _ _ _ _ | Scrolled now _ _ _ _ => Some now
  | StopCalled | TimerFired => None
  end.

(** The readings of the clock the inputs come with, taken in the order in
    which the inputs are handled, never go back, starting from [c]. *)
Fixpoint clock_monotone (c : Q) (inputs : list input) : bool :=
  match inputs with
  | [] => true
  | i :: rest =>
      match clock_of i with
      | Some now => Qle_bool c now && clock_monotone now rest
      | None => clock_monotone c rest
      end
  end.

(** The timestamps of a sequence of recorded events. *)
Fixpoint stamps (evs : list event) : list Q :=
  match evs with
  | [] => []
  | e :: rest =>
      match num_of (time_of e) with
      | Some q => q :: stamps rest
      | None => stamps rest
      end
  end.

(** Every number of the list is at least [c] and at least the one before
    it. *)
Fixpoint ascending_from (c : Q) (l : list Q) : bool :=
  match l with
  | [] => true
  | q :: rest => Qle_bool c q && ascending_from q rest
  end.

(** A notification as pynput delivers it on platform [P]: the key is one a
    listener passes, a symbolic key is a member of [keyboard.Key], and the
    button of a click is a member of [mouse.Button]. *)
Definition delivered (P : Platform) (i : input) : bool :=
  match i with
  | KeyPressed _ key | KeyReleased _ key =>
      listener_key key &&
      match key with
      | PKey n => member n (Key_members P)
      | _ => true
      end
  | Clicked _ _ _ (PButton b) _ => member b (Button_members P)
  | Clicked _ _ _ _ _ => false
  | _ => true
  end.

(** The event can be encoded, and its encoding decoded. *)
Definition storable (P : Platform) (e : event) : bool :=
  is_ok (j <- serialize_event P e ;; deserialize_event P j).

(** A few notifications: two keys, the stop key, a pointer move, a click. *)
Definition typing : list input :=
  [ KeyPressed 6 (PKeyCode None (Some "a") false);
    KeyReleased 7 (PKeyCode None (Some "a") false);
    KeyPressed 8 stop_hotkey;
    PointerMoved 9 (PInt 1) (PInt 2);
    Clicked 9 (PInt 1) (PInt 2) (PButton "left") (PBool true) ].

(** The press of the key pad's 5, its encoding, and what the encoding
    decodes to. *)
Definition keypad_press : event :=
  (PFloat (10 # 100), PStr "key_press", keypad_begin).

Definition keypad_entry : pyval :=
  PDict [("time", PFloat (10 # 100)); ("type", PStr "key_press");
         ("data", PDict stored_keypad_begin)].

Definition keypad_decoded : event :=
  (PFloat (10 # 100), PStr "key_press", PKeyCode None (Some "<65437>") false).

(** *** Playback *)

(** A sleep lasts a positive time. *)
Definition sleep_ok (e : effect) : bool :=
  match e with
  | Sleep d => positive d
  | _ => true
  end.

Definition crashed (en : ending) : bool :=
  match en with
  | Crashed _ => true
  | _ => false
  end.

(** An event with a numeric timestamp that is neither a click nor a
    scroll. *)
Definition no_pointer_call (e : event) : bool :=
  timed e && negb (is_in (kind_of e) ["mouse_click"; "mouse_scroll"]).

(** The event with the position of its click or scroll forgotten. *)
Definition forget_position (e : event) : event :=
  let '(t, k, d) := e in
  if is_in k ["mouse_click"; "mouse_scroll"] then
    match d with
    | PTuple [x; y; a; b] => (t, k, PTuple [PNone; PNone; a; b])
    | _ => e
    end
  else e.

(** An environment whose operating system refuses every call. *)
Definition refuses_all : player_env :=
  {| elapsed := fun _ => 1 # 4;
     stop_at_top := fun _ => false;
     stop_after_wait := fun _ => false;
     refused := fun _ => true;
     sleep_limit := longest_sleep;
     float_limit := largest_float |}.

(** Every event of [evs], replayed from index [i] on, is schedulable. *)
Fixpoint all_schedulable (env : player_env) (i : nat) (evs : list event) : bool :=
  match evs with
  | [] => true
  | e :: rest => schedulable env i e && all_schedulable env (S i) rest
  end.

Definition keys_only : list event := firstn 3 sample_macro.

(** *** Loading *)

(** [getattr] finds the name [n] on an enumeration class, as the name of a
    member or of another attribute. *)
Definition names_attribute (n : pyval) (members : list string)
                           (attributes : list (string * pyval)) : bool :=
  match n with
  | PStr s =>
      member s members ||
      match assoc s attributes with
      | Some _ => true
      | None => false
      end
  | _ => false
  end.

(** An entry carries a symbolic key name or a button name that is the name
    of no attribute at all of the enumeration class. *)
Definition unknown_name (P : Platform) (entry : pyval) : bool :=
  match field entry "type", field entry "data" with
  | Some kind, Some data =>
      if is_in kind ["key_press"; "key_release"] then
        match field data "vtype", field data "name" with
        | Some vtype, Some n =>
            py_eq vtype (PStr "Key")
            && negb (names_attribute n (Key_members P) (Key_attributes P))
        | _, _ => false
        end
      else if py_eq kind (PStr "mouse_click") then
        match field data "button" with
        | Some n => negb (names_attribute n (Button_members P) (Button_attributes P))
        | None => false
        end
      else false
  | _, _ => false
  end.

(** An entry that names a key no enumeration class knows. *)
Definition entry_named_hyper : pyval :=
  PDict [("time", PFloat (35 # 100)); ("type", PStr "key_press");
         ("data", PDict [("vtype", PStr "Key"); ("name", PStr "hyper")])].

(** *** Files *)

(** Neither an array nor anything else that can be iterated over with
    items: an empty string, an empty object. *)
Definition is_array (v : pyval) : bool :=
  match v with
  | PList _ => true
  | _ => false
  end.

Definition is_empty (v : pyval) : bool :=
  match v with
  | PStr s => (s =? "")%string
  | PDict d => Nat.eqb (List.length d) 0
  | _ => false
  end.

Definition is_nil {A : Type} (l : list A) : bool :=
  match l with
  | [] => true
  | _ :: _ => false
  end.

(** The events can be encoded and the encoding written. *)
Definition writable_macro (P : Platform) (evs : list event) : bool :=
  is_ok (l <- traverse (serialize_event P) evs ;; json_dump (PList l)).

(** A path made of the folder, a separator and the name of the file. *)
Definition slash_join (folder file : string) : string :=
  String.append folder (String.append "/" file).

(** A click whose button is a string, which has no [name]. *)
Definition click_without_button : event :=
  (PFloat 0, PStr "mouse_click", PTuple [PInt 1; PInt 2; PStr "left"; PBool true]).

(** A disk that holds the sample macro under the name [demo]. *)
Definition disk_with_demo : files :=
  fst (save_macro desktop slash_join sample_macro ("demo", true) true []).

(** *** The end of a capture *)




Definition is_timer (i : input) : bool :=
  match i with
  | TimerFired => true
  | _ => false
  end.

(** ** Properties of the codec *)

Lemma py_eq_number_refl (v : pyval) : is_number v = true -> py_eq v v = true.
Proof.
  destruct v; simpl; try discriminate; intros _; apply Qeq_bool_refl.
Qed.

Lemma py_eq_PStr (s t : string) : py_eq (PStr s) (PStr t) = String.eqb s t.
Proof. reflexivity. Qed.

Lemma is_in_PStr (s : string) (names : list string) :
  is_in (PStr s) names = member s names.
Proof. reflexivity. Qed.

Lemma roundtrip_faithful (P : Platform) (e : event) :
  faithful P e = true -> roundtrip P e = true.
Proof.
  destruct e as [[t kind] d]. unfold faithful.
  intros H. apply andb_prop in H. destruct H as [Ht H].
  destruct kind as [ | | | | k | | | | | | | | ]; try discriminate.
  pose proof (py_eq_number_refl t Ht) as Et.
  destruct ((k =? "key_press") || (k =? "key_release"))%string eqn:Ek.
  - (* a key event *)
    assert (Ekk : py_eq (PStr k) (PStr k) = true) by (simpl; apply String.eqb_refl).
    unfold roundtrip, serialize_event.
    rewrite is_in_PStr. unfold member. simpl existsb.
    rewrite orb_false_r, Ek.
    destruct d as [ | | | | | | | | vk [c|] [|] | n | | | ]; try discriminate; simpl in H.
    + simpl. unfold deserialize_event. simpl. rewrite orb_false_r, Ek. simpl.
      rewrite Et, String.eqb_refl, String.eqb_refl.
      reflexivity.
    + simpl. unfold deserialize_event. simpl. rewrite orb_false_r, Ek. simpl.
      unfold deserialize_key, getattr. simpl.
      unfold member in H. rewrite H. simpl.
      rewrite Et, String.eqb_refl, String.eqb_refl. reflexivity.
  - apply orb_false_elim in Ek. destruct Ek as [E1 E2].
    destruct (k =? "mouse_move")%string eqn:Em.
    { apply String.eqb_eq in Em. subst k.
      destruct d as [ | | | | | | [ | x [ | y [ | ? ?]]] | | | | | | ]; try discriminate.
      apply andb_prop in H. destruct H as [Hx Hy].
      unfold roundtrip. simpl.
      rewrite Et, (py_eq_number_refl x Hx), (py_eq_number_refl y Hy). reflexivity. }
    destruct (k =? "mouse_click")%string eqn:Ec.
    { apply String.eqb_eq in Ec. subst k.
      destruct d as [ | | | | | | [ | x [ | y [ | b [ | p [ | ? ?]]]]] | | | | | | ];
        try discriminate;
        destruct b; try discriminate; destruct p; try discriminate.
      apply andb_prop in H. destruct H as [H Hb].
      apply andb_prop in H. destruct H as [Hx Hy].
      unfold roundtrip. simpl.
      unfold deserialize_event, deserialize_mouse_button, getattr. simpl.
      unfold member in Hb. rewrite Hb. simpl.
      rewrite Et, (py_eq_number_refl x Hx), (py_eq_number_refl y Hy).
      rewrite String.eqb_refl. simpl. destruct b; reflexivity. }
    destruct (k =? "mouse_scroll")%string eqn:Es; try discriminate.
    apply String.eqb_eq in Es. subst k.
    destruct d as [ | | | | | | [ | x [ | y [ | dx [ | dy [ | ? ?]]]]] | | | | | | ];
      try discriminate.
    apply andb_prop in H. destruct H as [H Hdy].
    apply andb_prop in H. destruct H as [H Hdx].
    apply andb_prop in H. destruct H as [Hx Hy].
    unfold roundtrip. simpl.
    rewrite Et, (py_eq_number_refl x Hx), (py_eq_number_refl y Hy),
      (py_eq_number_refl dx Hdx), (py_eq_number_refl dy Hdy).
    reflexivity.
Qed.

Lemma traverse_roundtrip (P : Platform) (s : list event) :
  forallb (roundtrip P) s = true ->
  exists l s',
    traverse (serialize_event P) s = Ok l /\
    traverse (deserialize_event P) l = Ok s' /\
    events_eq s' s = true.
Proof.
  induction s as [ | e s IH]; simpl; intros H.
  - exists [], []. repeat split.
  - apply andb_prop in H. destruct H as [He Hs].
    destruct (IH Hs) as (l & s' & Hl & Hs' & Heq).
    unfold roundtrip in He.
    destruct (serialize_event P e) as [j | ] eqn:Ej; try discriminate.
    destruct (deserialize_event P j) as [e' | ] eqn:Ee; try discriminate.
    exists (j :: l), (e' :: s'). rewrite Hl. simpl. rewrite Ee, Hs'. simpl.
    rewrite He, Heq. repeat split.
Qed.

Lemma roundtrip_all_of_each (P : Platform) (s : list event) :
  forallb (roundtrip P) s = true -> roundtrip_all P s = true.
Proof.
  intros H. destruct (traverse_roundtrip P s H) as (l & s' & Hl & Hs' & Heq).
  unfold roundtrip_all, serialize_events, deserialize_events.
  rewrite Hl. simpl. rewrite Hs'. exact Heq.
Qed.

(** C1 (amended): every event of a supported kind whose key is a member of
    [keyboard.Key] or a key code with a character that is not a dead key
    decodes, after encoding, to an event equal to itself; hence so does every
    sequence of such events. *)
Theorem codec_roundtrip_faithful (P : Platform) (s : list event) :
  forallb (faithful P) s = true ->
  forallb (roundtrip P) s = true /\ roundtrip_all P s = true.
Proof.
  intros H.
  assert (Hr : forallb (roundtrip P) s = true).
  { rewrite forallb_forall in *. intros e He.
    apply roundtrip_faithful, H, He. }
  split; [exact Hr | apply roundtrip_all_of_each, Hr].
Qed.

(** The sample macro survives the codec, event by event and as a whole. *)
Lemma codec_roundtrip_faithful_sample :
  forallb (roundtrip desktop) sample_macro = true /\
  roundtrip_all desktop sample_macro = true.
Proof.
  apply (codec_roundtrip_faithful desktop sample_macro). reflexivity.
Defined.

(** C1 as stated fails: the recorder captures the press of a key that has no
    character, and the event it stored does not survive the codec. *)
Lemma roundtrip_fails_without_char :
  events (recorder (capture true 0 [KeyPressed (10 # 100) keypad_begin]))
    = [(PFloat (10 # 100), PStr "key_press", keypad_begin)] /\
  serialize_event desktop (PFloat (10 # 100), PStr "key_press", keypad_begin)
    = Ok (PDict [("time", PFloat (10 # 100)); ("type", PStr "key_press");
                 ("data", PDict [("vtype", PStr "str");
                                 ("value", PStr "<65437>")])]) /\
  deserialize_event desktop
      (PDict [("time", PFloat (10 # 100)); ("type", PStr "key_press");
              ("data", PDict [("vtype", PStr "str");
                              ("value", PStr "<65437>")])])
    = Ok (PFloat (10 # 100), PStr "key_press",
          PKeyCode None (Some "<65437>") false) /\
  roundtrip desktop (PFloat (10 # 100), PStr "key_press", keypad_begin) = false.
Proof. repeat split. Qed.

(** A dead key does not survive the codec either: it is stored by its
    character alone and comes back as the plain character. *)
Lemma roundtrip_fails_on_dead_key :
  serialize_key desktop (PKeyCode None (Some "~") true)
    = Ok (PDict [("vtype", PStr "KeyCode"); ("char", PStr "~")]) /\
  deserialize_key desktop (PDict [("vtype", PStr "KeyCode"); ("char", PStr "~")])
    = Ok (PKeyCode None (Some "~") false) /\
  roundtrip desktop
    (PFloat (10 # 100), PStr "key_press", PKeyCode None (Some "~") true) = false.
Proof. repeat split. Qed.

Lemma is_json_assoc (d : list (string * pyval)) (k : string) (v : pyval) :
  is_json (PDict d) = true -> assoc k d = Some v -> is_json v = true.
Proof.
  simpl. induction d as [ | [k' v'] d IH]; simpl; try discriminate.
  intros H. apply andb_prop in H. destruct H as [Hv Hd].
  destruct (String.eqb k k').
  - intros E. injection E as <-. exact Hv.
  - apply IH, Hd.
Qed.

Lemma from_char_json (P : Platform) (v : pyval) :
  is_json v = true -> is_ok (from_char P v) = true.
Proof. destruct v; simpl; trivial; discriminate. Qed.

Lemma serialize_key_fallback (P : Platform) (key : pyval) (d : list (string * pyval)) :
  serialize_key P key = Ok (PDict d) ->
  assoc "vtype" d = Some (PStr "str") ->
  exists s, py_str P key = Ok s /\ d = [("vtype", PStr "str"); ("value", PStr s)].
Proof.
  intros H Hv.
  destruct key as [ | | | | | | | | vk [c|] dead | | | | ];
    cbv beta iota delta [serialize_key attr_name] in H;
    try (injection H as <-; discriminate);
    (destruct (py_str P _) as [txt|] eqn:E; simpl in H; [ | discriminate]);
    injection H as <-; exists txt; split; reflexivity.
Qed.

(** C10: decoding a key payload tagged "str" never fails; without a "value"
    it gives the key code of the empty string; with a stored string it gives
    the key code of that string, which is not the key the listener had
    passed to the recorder. *)
Theorem fallback_key_decoding (P : Platform) (d : list (string * pyval)) :
  is_json (PDict d) = true ->
  assoc "vtype" d = Some (PStr "str") ->
  is_ok (deserialize_key P (PDict d)) = true /\
  (assoc "value" d = None ->
   deserialize_key P (PDict d) = Ok (PKeyCode None (Some "") false)) /\
  (forall s, assoc "value" d = Some (PStr s) ->
   deserialize_key P (PDict d) = Ok (PKeyCode None (Some s) false)) /\
  (forall key, listener_key key = true ->
   serialize_key P key = Ok (PDict d) ->
   exists s, py_str P key = Ok s /\
     deserialize_key P (PDict d) = Ok (PKeyCode None (Some s) false) /\
     py_eq (PKeyCode None (Some s) false) key = false).
Proof.
  intros Hj Hv.
  assert (Hd : deserialize_key P (PDict d) =
               v <- dict_get (PDict d) "value" (PStr "") ;; from_char P v).
  { unfold deserialize_key. simpl getitem. rewrite Hv. reflexivity. }
  rewrite Hd. simpl dict_get. repeat split.
  - destruct (assoc "value" d) as [v | ] eqn:E; simpl; trivial.
    apply from_char_json. exact (is_json_assoc d "value" v Hj E).
  - intros E. rewrite E. reflexivity.
  - intros s E. rewrite E. reflexivity.
  - intros key Hk Hs.
    destruct (serialize_key_fallback P key d Hs Hv) as (s & Es & ->).
    exists s. split; [exact Es | ]. split; [reflexivity | ].
    destruct key as [ | | | | | | | | vk [c|] dead | | | | ]; try discriminate;
      try reflexivity.
    destruct vk, dead; try discriminate; reflexivity.
Qed.

(** The payload the recorder stores for the key pad's 5. *)
Lemma fallback_key_decoding_sample :
  is_ok (deserialize_key desktop (PDict stored_keypad_begin)) = true /\
  (assoc "value" stored_keypad_begin = None ->
   deserialize_key desktop (PDict stored_keypad_begin)
     = Ok (PKeyCode None (Some "") false)) /\
  (forall s, assoc "value" stored_keypad_begin = Some (PStr s) ->
   deserialize_key desktop (PDict stored_keypad_begin)
     = Ok (PKeyCode None (Some s) false)) /\
  (forall key, listener_key key = true ->
   serialize_key desktop key = Ok (PDict stored_keypad_begin) ->
   exists s, py_str desktop key = Ok s /\
     deserialize_key desktop (PDict stored_keypad_begin)
       = Ok (PKeyCode None (Some s) false) /\
     py_eq (PKeyCode None (Some s) false) key = false).
Proof.
  apply (fallback_key_decoding desktop stored_keypad_begin); reflexivity.
Defined.

(** ** Properties of the player *)

(** A failure of a key call is caught: no exception leaves the synthesis of
    a key event, and the error is printed. *)
Lemma key_failure_is_caught (key : pyval) :
  synthesize true (PStr "key_press") key
    = ([Synth (KbPress key); Printed "Error on key press"], None) /\
  synthesize true (PStr "key_release") key
    = ([Synth (KbRelease key); Printed "Error on key release"], None).
Proof. split; reflexivity. Qed.

(** A failure of a pointer call is not: the exception leaves the synthesis
    of a click and of a scroll. *)
Lemma pointer_failure_escapes (x y a b : pyval) :
  snd (synthesize true (PStr "mouse_click") (PTuple [x; y; a; b]))
    = Some OSFailure /\
  snd (synthesize true (PStr "mouse_scroll") (PTuple [x; y; a; b]))
    = Some OSFailure.
Proof. split; reflexivity. Qed.

(** C2 fails on the code: the failure of a key call is caught and logged,
    the failure of a pointer call ends the run.  With the operating system
    refusing the first call, a click followed by a key press stops at the
    click, while a key press followed by a click replays both. *)
Theorem pointer_failure_ends_playback :
  play refuses_first [click_left; press_a]
    = ([Synth (MousePress (PButton "left"))], Crashed OSFailure) /\
  play refuses_first [press_a; click_left]
    = ([Synth (KbPress (PKeyCode None (Some "a") false));
        Printed "Error on key press";
        Synth (MousePress (PButton "left"))], Finished).
Proof. split; reflexivity. Qed.

Lemma synth_calls_app (a b : list effect) :
  synth_calls (a ++ b) = synth_calls a ++ synth_calls b.
Proof.
  induction a as [ | [d | c | m] a IH]; simpl; auto. now rewrite IH.
Qed.

Lemma sleeps_app (a b : list effect) : sleeps (a ++ b) = sleeps a ++ sleeps b.
Proof.
  induction a as [ | [d | c | m] a IH]; simpl; auto. now rewrite IH.
Qed.

Lemma synth_calls_map (l : list os_call) : synth_calls (map Synth l) = l.
Proof. induction l as [ | c l IH]; simpl; [ | rewrite IH]; reflexivity. Qed.

Lemma sleeps_map (l : list os_call) : sleeps (map Synth l) = [].
Proof. induction l as [ | c l IH]; simpl; trivial. Qed.

(** [positive] is the test [> 0]. *)
Lemma positive_compare (q : Q) :
  positive q = match (q ?= 0)%Q with Gt => true | _ => false end.
Proof.
  unfold positive, Qle_bool, Qcompare, Z.leb.
  destruct (Qnum q * QDen 0 ?= Qnum 0 * QDen q)%Z; reflexivity.
Qed.

(** The wait of the code is the wait the specification prescribes, whenever
    the code does not raise. *)
Lemma wait_before_waits (env : player_env) (i : nat) (e : event)
      (waited : list effect) :
  wait_before env i (time_of e) = Ok waited -> waited = waits env i [e].
Proof.
  unfold wait_before, subtract_elapsed. cbn [waits]. rewrite app_nil_r.
  destruct (time_of e) as [ | b | z | q | | | | | | | | | f];
    cbn [bind num_of above_zero sleep]; try discriminate.
  - rewrite positive_compare.
    destruct ((if b then 1 else 0) - elapsed env i ?= 0)%Q;
      try (intros H; injection H as <-; reflexivity).
    destruct (Qle_bool _ _); [ | discriminate].
    intros H; injection H as <-; reflexivity.
  - destruct (Qle_bool (Qabs (inject_Z z)) (float_limit env));
      cbn [bind above_zero sleep]; [ | discriminate].
    rewrite positive_compare.
    destruct (inject_Z z - elapsed env i ?= 0)%Q;
      try (intros H; injection H as <-; reflexivity).
    destruct (Qle_bool _ _); [ | discriminate].
    intros H; injection H as <-; reflexivity.
  - rewrite positive_compare.
    destruct (q - elapsed env i ?= 0)%Q;
      try (intros H; injection H as <-; reflexivity).
    destruct (Qle_bool _ _); [ | discriminate].
    intros H; injection H as <-; reflexivity.
  - destruct f; try discriminate; intros H; injection H as <-; reflexivity.
Qed.

(** A schedulable event is waited for without an exception. *)
Lemma wait_before_schedulable (env : player_env) (i : nat) (e : event) :
  schedulable env i e = true ->
  wait_before env i (time_of e) = Ok (waits env i [e]).
Proof.
  intros H.
  assert (X : exists waited, wait_before env i (time_of e) = Ok waited).
  { revert H. unfold schedulable, wait_before, subtract_elapsed.
    destruct (time_of e) as [ | b | z | q | | | | | | | | | f];
      cbn [bind num_of above_zero sleep andb]; try discriminate.
    - intros ->. destruct (positive _); eauto.
    - intros H. apply andb_prop in H. destruct H as [H1 H2].
      rewrite H1. cbn [bind above_zero sleep]. rewrite H2.
      destruct (positive _); eauto.
    - intros ->. destruct (positive _); eauto. }
  destruct X as [waited Hw]. rewrite Hw.
  now rewrite (wait_before_waits env i e waited Hw).
Qed.

(** What the player waits is nothing or one sleep of a positive time. *)
Lemma wait_before_inv (env : player_env) (i : nat) (t : pyval)
      (waited : list effect) :
  wait_before env i t = Ok waited ->
  waited = [] \/ exists q, waited = [Sleep q] /\ positive q = true.
Proof.
  unfold wait_before, subtract_elapsed.
  destruct t as [ | b | z | q | | | | | | | | | f];
    cbn [bind above_zero sleep]; try discriminate.
  - destruct (positive _) eqn:E; [ | intros H; injection H as <-; now left].
    destruct (Qle_bool _ _); [ | discriminate].
    intros H; injection H as <-. right. eauto.
  - destruct (Qle_bool (Qabs (inject_Z z)) (float_limit env));
      cbn [bind above_zero sleep]; [ | discriminate].
    destruct (positive _) eqn:E; [ | intros H; injection H as <-; now left].
    destruct (Qle_bool _ _); [ | discriminate].
    intros H; injection H as <-. right. eauto.
  - destruct (positive _) eqn:E; [ | intros H; injection H as <-; now left].
    destruct (Qle_bool _ _); [ | discriminate].
    intros H; injection H as <-. right. eauto.
  - destruct f; try discriminate; intros H; injection H as <-; now left.
Qed.

Lemma wait_before_calls (env : player_env) (i : nat) (t : pyval)
      (waited : list effect) :
  wait_before env i t = Ok waited -> synth_calls waited = [].
Proof.
  intros H. destruct (wait_before_inv env i t waited H) as [-> | (q & -> & _)];
    reflexivity.
Qed.

Lemma waits_calls (env : player_env) (evs : list event) :
  forall i, synth_calls (waits env i evs) = [].
Proof.
  induction evs as [ | e rest IH]; intros i; cbn [waits]; trivial.
  rewrite synth_calls_app, IH, app_nil_r.
  destruct (num_of (time_of e)) as [t | ]; trivial.
  destruct (t - elapsed env i ?= 0)%Q; reflexivity.
Qed.

Lemma waits_sleeps (env : player_env) (evs : list event) :
  forall i, sleeps (waits env i evs) = waits env i evs.
Proof.
  induction evs as [ | e rest IH]; intros i; cbn [waits]; trivial.
  rewrite sleeps_app, IH. f_equal.
  destruct (num_of (time_of e)) as [t | ]; trivial.
  destruct (t - elapsed env i ?= 0)%Q; reflexivity.
Qed.

(** The comparison of the type of an event with the name of a kind. *)
Lemma py_eq_kind (e : event) (k : string) :
  py_eq (kind_of e) (PStr k) = has_kind e k.
Proof. unfold has_kind. destruct (kind_of e); reflexivity. Qed.

(** The calls the code issues for an event are the calls prescribed for it,
    whether or not the operating system accepts them. *)
Lemma synthesize_calls (r : bool) (e : event) :
  synth_calls (fst (synthesize r (kind_of e) (data_of e))) = intended_calls e.
Proof.
  unfold intended_calls, synthesize. rewrite !py_eq_kind.
  destruct (has_kind e "key_press"); [destruct r; reflexivity | ].
  destruct (has_kind e "key_release"); [destruct r; reflexivity | ].
  destruct (has_kind e "mouse_click").
  { destruct (unpack4 (data_of e)) as [[[[x y] b] p] | ]; reflexivity. }
  destruct (has_kind e "mouse_scroll").
  { destruct (unpack4 (data_of e)) as [[[[x y] dx] dy] | ]; reflexivity. }
  reflexivity.
Qed.

(** When no exception leaves the synthesis of an event, its effects are the
    prescribed call, followed by the report of its failure if it failed. *)
Lemma synthesize_replay (r : bool) (e : event) :
  snd (synthesize r (kind_of e) (data_of e)) = None ->
  fst (synthesize r (kind_of e) (data_of e))
  = map Synth (intended_calls e) ++ (if r then error_report e else []).
Proof.
  unfold intended_calls, error_report, synthesize. rewrite !py_eq_kind.
  destruct (has_kind e "key_press"); [destruct r; reflexivity | ].
  destruct (has_kind e "key_release"); [destruct r; reflexivity | ].
  destruct (has_kind e "mouse_click").
  { destruct (unpack4 (data_of e)) as [[[[x y] b] p] | ]; [ | discriminate].
    destruct r; [discriminate | reflexivity]. }
  destruct (has_kind e "mouse_scroll").
  { destruct (unpack4 (data_of e)) as [[[[x y] dx] dy] | ]; [ | discriminate].
    destruct r; [discriminate | reflexivity]. }
  destruct r; reflexivity.
Qed.

(** One iteration of the loop that neither observes a cancellation nor lets
    an exception escape. *)
Lemma play_from_step (env : player_env) (i : nat) (e : event) (rest : list event)
      (waited : list effect) :
  stop_at_top env i = false ->
  stop_after_wait env i = false ->
  wait_before env i (time_of e) = Ok waited ->
  snd (synthesize (refused env i) (kind_of e) (data_of e)) = None ->
  play_from env i (e :: rest) =
    (waited
       ++ fst (synthesize (refused env i) (kind_of e) (data_of e))
       ++ fst (play_from env (S i) rest),
     snd (play_from env (S i) rest)).
Proof.
  destruct e as [[et ek] ed]. unfold time_of, kind_of, data_of. simpl.
  intros -> -> -> H.
  destruct (synthesize (refused env i) ek ed) as [out [x | ]]; try discriminate.
  destruct (play_from env (S i) rest). reflexivity.
Qed.

(** A run that finishes went through every iteration. *)
Lemma play_from_finished_inv (env : player_env) (i : nat) (e : event)
      (rest : list event) :
  snd (play_from env i (e :: rest)) = Finished ->
  stop_at_top env i = false /\ stop_after_wait env i = false /\
  (exists waited, wait_before env i (time_of e) = Ok waited) /\
  snd (synthesize (refused env i) (kind_of e) (data_of e)) = None /\
  snd (play_from env (S i) rest) = Finished.
Proof.
  destruct e as [[et ek] ed]. unfold time_of, kind_of, data_of. simpl.
  destruct (stop_at_top env i); try discriminate.
  destruct (wait_before env i et) as [waited | ]; try discriminate.
  destruct (stop_after_wait env i); try discriminate.
  destruct (synthesize (refused env i) ek ed) as [out [x | ]]; try discriminate.
  destruct (play_from env (S i) rest) as [later en]. simpl.
  intros ->. repeat split. now exists waited.
Qed.

Lemma play_from_finished (env : player_env) (evs : list event) :
  forall i, snd (play_from env i evs) = Finished ->
  fst (play_from env i evs) = replay env i evs /\
  synth_calls (fst (play_from env i evs)) = List.concat (map intended_calls evs) /\
  sleeps (fst (play_from env i evs)) = waits env i evs.
Proof.
  induction evs as [ | e rest IH]; intros i H.
  - repeat split.
  - destruct (play_from_finished_inv env i e rest H)
      as (H1 & H2 & [waited Hw] & Hs & Hrest).
    rewrite (play_from_step env i e rest waited H1 H2 Hw Hs).
    destruct (IH (S i) Hrest) as (IHr & IHc & IHs).
    rewrite (wait_before_waits env i e waited Hw).
    rewrite (synthesize_replay (refused env i) e Hs).
    cbn [fst map List.concat replay].
    split; [rewrite IHr; now rewrite <- !app_assoc | ].
    assert (Ec : synth_calls (if refused env i then error_report e else []) = []).
    { destruct (refused env i); trivial. unfold error_report.
      destruct (has_kind e "key_press"); [reflexivity | ].
      destruct (has_kind e "key_release"); reflexivity. }
    assert (Es : sleeps (if refused env i then error_report e else []) = []).
    { destruct (refused env i); trivial. unfold error_report.
      destruct (has_kind e "key_press"); [reflexivity | ].
      destruct (has_kind e "key_release"); reflexivity. }
    rewrite !synth_calls_app, !sleeps_app, IHc, IHs, Ec, Es.
    rewrite waits_calls, waits_sleeps, synth_calls_map, sleeps_map.
    cbn [waits app]. rewrite !app_nil_r. split; reflexivity.
Qed.

(** C5: a run that is neither cancelled nor interrupted by an exception goes
    through the events in the order of the sequence: before the event of
    index [i] it sleeps [timestamp - elapsed] when that is more than zero
    and not at all otherwise, then issues the call prescribed for the event;
    the calls of the run are those of every event of the sequence, in order
    and whatever the elapsed times, and its sleeps are the prescribed
    waits. *)
Theorem playback_in_order (env : player_env) (evs : list event) :
  snd (play env evs) = Finished ->
  fst (play env evs) = replay env 0 evs /\
  synth_calls (fst (play env evs)) = List.concat (map intended_calls evs) /\
  sleeps (fst (play env evs)) = waits env 0 evs.
Proof. intros H. exact (play_from_finished env evs 0 H). Qed.

(** The sample macro, replayed a quarter of a second behind the clock. *)
Lemma playback_in_order_sample :
  fst (play quarter_second sample_macro) = replay quarter_second 0 sample_macro /\
  synth_calls (fst (play quarter_second sample_macro))
    = List.concat (map intended_calls sample_macro) /\
  sleeps (fst (play quarter_second sample_macro))
    = waits quarter_second 0 sample_macro.
Proof.
  apply (playback_in_order quarter_second sample_macro). reflexivity.
Defined.

(** A prefix of the sequence that is replayed to its end leaves the loop at
    the first event after it. *)
Lemma play_from_prefix (env : player_env) (done : list event) :
  forall (k : nat) (tail : list event),
  snd (play_from env k done) = Finished ->
  play_from env k (done ++ tail) =
    (fst (play_from env k done)
       ++ fst (play_from env (k + List.length done) tail),
     snd (play_from env (k + List.length done) tail)).
Proof.
  induction done as [ | e done IH]; intros k tail Hf.
  - simpl. rewrite Nat.add_0_r. now destruct (play_from env k tail).
  - destruct (play_from_finished_inv env k e done Hf)
      as (H1 & H2 & [waited Hw] & Hs & Hrest).
    rewrite <- app_comm_cons.
    rewrite !(play_from_step env k e _ waited H1 H2 Hw Hs).
    rewrite (IH (S k) tail Hrest). cbn [fst snd List.length].
    rewrite <- plus_n_Sm. simpl. now rewrite !app_assoc.
Qed.

(** C4: when the events [done] are replayed to the last of them and the
    cancellation is observed at one of the two checks that precede the
    synthesis of the next event, the calls of the run are the calls
    prescribed for the events of [done], in order: neither [next] nor any
    event of [rest] is synthesized.  Seen at the top of the iteration, the
    cancellation ends the run there; arrived during the wait of [next], it
    is seen by the check between that wait and the synthesis call. *)
Theorem cancellation_boundary (env : player_env) (done : list event)
        (next : event) (rest : list event) :
  snd (play env done) = Finished ->
  stop_at_top env (List.length done) = true \/
  stop_after_wait env (List.length done) = true ->
  synth_calls (fst (play env (done ++ next :: rest)))
    = List.concat (map intended_calls done) /\
  (stop_at_top env (List.length done) = true ->
   play env (done ++ next :: rest) = (replay env 0 done, Cancelled)) /\
  (stop_at_top env (List.length done) = false ->
   schedulable env (List.length done) next = true ->
   play env (done ++ next :: rest)
   = (replay env 0 done ++ waits env (List.length done) [next], Cancelled)).
Proof.
  intros Hf Hstop. unfold play in *.
  destruct (play_from_finished env done 0 Hf) as (Hr & Hcalls & _).
  rewrite (play_from_prefix env done 0 (next :: rest) Hf).
  cbn [fst snd]. simpl Nat.add. rewrite Hr in *.
  destruct next as [[nt nk] nd].
  split; [ | split].
  - rewrite synth_calls_app, Hcalls. cbn [play_from].
    destruct (stop_at_top env (List.length done)) eqn:E1;
      [now rewrite app_nil_r | ].
    destruct Hstop as [Hs | Hs]; [discriminate | ].
    destruct (wait_before env (List.length done) nt) as [waited | x] eqn:Ew;
      [ | now rewrite app_nil_r].
    rewrite Hs. cbn [fst].
    now rewrite (wait_before_calls _ _ _ _ Ew), app_nil_r.
  - intros E1. cbn [play_from]. rewrite E1. cbn [fst snd].
    now rewrite app_nil_r.
  - intros E1 Hn. cbn [play_from]. rewrite E1.
    destruct Hstop as [Hs | Hs]; [rewrite Hs in E1; discriminate | ].
    pose proof (wait_before_schedulable env (List.length done) (nt, nk, nd) Hn)
      as Hw.
    unfold time_of in Hw. cbn [fst] in Hw. rewrite Hw, Hs. reflexivity.
Qed.

(** The sample macro, cancelled during the wait of its third event. *)
Lemma cancellation_boundary_sample :
  synth_calls (fst (play cancel_in_third_wait (first_two ++ third :: after_third)))
    = List.concat (map intended_calls first_two) /\
  (stop_at_top cancel_in_third_wait (List.length first_two) = true ->
   play cancel_in_third_wait (first_two ++ third :: after_third)
   = (replay cancel_in_third_wait 0 first_two, Cancelled)) /\
  (stop_at_top cancel_in_third_wait (List.length first_two) = false ->
   schedulable cancel_in_third_wait (List.length first_two) third = true ->
   play cancel_in_third_wait (first_two ++ third :: after_third)
   = (replay cancel_in_third_wait 0 first_two
        ++ waits cancel_in_third_wait (List.length first_two) [third],
      Cancelled)).
Proof.
  apply (cancellation_boundary cancel_in_third_wait first_two third after_third);
    [reflexivity | right; reflexivity].
Defined.

Lemma synthesize_never_moves (r : bool) (k d : pyval) :
  existsb is_move (synth_calls (fst (synthesize r k d))) = false.
Proof.
  unfold synthesize.
  destruct (py_eq k (PStr "key_press")); [destruct r; reflexivity | ].
  destruct (py_eq k (PStr "key_release")); [destruct r; reflexivity | ].
  destruct (py_eq k (PStr "mouse_click")).
  { destruct (unpack4 d) as [[[[x y] b] p] | ]; [ | reflexivity].
    destruct (truthy p); reflexivity. }
  destruct (py_eq k (PStr "mouse_scroll")).
  { destruct (unpack4 d) as [[[[x y] dx] dy] | ]; reflexivity. }
  reflexivity.
Qed.

Lemma play_from_never_moves (env : player_env) (evs : list event) :
  forall i, existsb is_move (synth_calls (fst (play_from env i evs))) = false.
Proof.
  induction evs as [ | [[et ek] ed] rest IH]; intros i; simpl; trivial.
  destruct (stop_at_top env i); trivial.
  destruct (wait_before env i et) as [waited | ] eqn:Ew; trivial.
  pose proof (wait_before_calls env i et waited Ew) as Hw.
  destruct (stop_after_wait env i).
  { simpl. now rewrite Hw. }
  pose proof (synthesize_never_moves (refused env i) ek ed) as Hs.
  destruct (synthesize (refused env i) ek ed) as [out [x | ]]; simpl in *.
  - now rewrite synth_calls_app, Hw.
  - specialize (IH (S i)). destruct (play_from env (S i) rest) as [later en].
    simpl in *. rewrite !synth_calls_app, Hw. simpl.
    now rewrite existsb_app, Hs, IH.
Qed.

(** ** Properties of loading *)

Lemma getitem_field (v : pyval) (k : string) :
  getitem v k =
  match field v k with
  | Some x => Ok x
  | None => Raise (match v with PDict _ => KeyError k | _ => TypeError end)
  end.
Proof. destruct v; reflexivity. Qed.

Lemma traverse_app {A B : Type} (f : A -> result B) (l1 l2 : list A)
      (r1 r2 : list B) :
  traverse f l1 = Ok r1 -> traverse f l2 = Ok r2 ->
  traverse f (l1 ++ l2) = Ok (r1 ++ r2).
Proof.
  revert r1. induction l1 as [ | x l1 IH]; simpl; intros r1 H1 H2.
  - injection H1 as <-. exact H2.
  - destruct (f x) as [y | ]; try discriminate.
    destruct (traverse f l1) as [ys | ]; try discriminate.
    injection H1 as <-. now rewrite (IH ys eq_refl H2).
Qed.

Lemma traverse_raises {A B : Type} (f : A -> result B) (l : list A) (x : A) :
  In x l -> is_ok (f x) = false -> is_ok (traverse f l) = false.
Proof.
  induction l as [ | y l IH]; simpl; intros Hin Hx; [contradiction | ].
  destruct Hin as [-> | Hin].
  - destruct (f x); [discriminate | reflexivity].
  - destruct (f y); trivial. specialize (IH Hin Hx).
    destruct (traverse f l); [discriminate | reflexivity].
Qed.

Lemma unknown_kind_tests (k : string) :
  member k known_kinds = false ->
  is_in (PStr k) ["key_press"; "key_release"] = false /\
  py_eq (PStr k) (PStr "key_press") = false /\
  py_eq (PStr k) (PStr "key_release") = false /\
  py_eq (PStr k) (PStr "mouse_move") = false /\
  py_eq (PStr k) (PStr "mouse_click") = false /\
  py_eq (PStr k) (PStr "mouse_scroll") = false.
Proof.
  unfold member, known_kinds. simpl existsb. rewrite is_in_PStr, !py_eq_PStr.
  unfold member. simpl existsb.
  destruct (k =? "key_press")%string; try discriminate.
  destruct (k =? "key_release")%string; try discriminate.
  destruct (k =? "mouse_move")%string; try discriminate.
  destruct (k =? "mouse_click")%string; try discriminate.
  destruct (k =? "mouse_scroll")%string; try discriminate.
  repeat split.
Qed.

(** C9 (amended): an entry of a macro file with a time, a data field and a
    type that is none of the five kinds decodes to the event
    [(time, type, data)], so it never makes the loading of a file fail; the
    player issues no call for it and its synthesis raises nothing; and when
    its time is one the player can wait for, the player waits for it as for
    any other event and goes on with the next event. *)
Theorem unknown_type_is_skipped (P : Platform) (env : player_env)
        (entry t : pyval) (k : string) (d : pyval) :
  field entry "time" = Some t ->
  field entry "type" = Some (PStr k) ->
  member k known_kinds = false ->
  field entry "data" = Some d ->
  deserialize_event P entry = Ok (t, PStr k, d) /\
  (forall before after evs1 evs2,
     traverse (deserialize_event P) before = Ok evs1 ->
     traverse (deserialize_event P) after = Ok evs2 ->
     deserialize_events P (PList (before ++ entry :: after))
       = Ok (evs1 ++ (t, PStr k, d) :: evs2)) /\
  (forall r, synthesize r (PStr k) d = ([], None)) /\
  (forall i rest,
     stop_at_top env i = false ->
     stop_after_wait env i = false ->
     schedulable env i (t, PStr k, d) = true ->
     play_from env i ((t, PStr k, d) :: rest)
       = (waits env i [(t, PStr k, d)] ++ fst (play_from env (S i) rest),
          snd (play_from env (S i) rest))).
Proof.
  intros Ht Hk Hu Hd.
  destruct (unknown_kind_tests k Hu) as (Uin & U1 & U2 & U3 & U4 & U5).
  assert (He : deserialize_event P entry = Ok (t, PStr k, d)).
  { unfold deserialize_event. rewrite !getitem_field, Ht, Hk, Hd.
    cbn [bind]. now rewrite Uin, U3, U4, U5. }
  assert (Hs : forall r, synthesize r (PStr k) d = ([], None)).
  { intros r. unfold synthesize. now rewrite U1, U2, U4, U5. }
  repeat split; trivial.
  - intros before after evs1 evs2 H1 H2. unfold deserialize_events.
    cbn [iterate bind]. apply traverse_app; trivial.
    cbn [traverse]. now rewrite He, H2.
  - intros i rest H1 H2 Hw.
    pose proof (play_from_step env i (t, PStr k, d) rest _ H1 H2
                  (wait_before_schedulable env i _ Hw)) as X.
    unfold kind_of, data_of in X. cbn [fst snd] in X. rewrite Hs in X.
    exact (X eq_refl).
Qed.

(** An entry of a kind this version does not know. *)
Lemma unknown_type_is_skipped_sample :
  deserialize_event desktop entry_of_a_later_version
    = Ok (PFloat (35 # 100), PStr "gamepad_button", PDict [("id", PInt 3)]) /\
  (forall before after evs1 evs2,
     traverse (deserialize_event desktop) before = Ok evs1 ->
     traverse (deserialize_event desktop) after = Ok evs2 ->
     deserialize_events desktop (PList (before ++ entry_of_a_later_version :: after))
       = Ok (evs1 ++ (PFloat (35 # 100), PStr "gamepad_button",
                      PDict [("id", PInt 3)]) :: evs2)) /\
  (forall r, synthesize r (PStr "gamepad_button") (PDict [("id", PInt 3)])
             = ([], None)) /\
  (forall i rest,
     stop_at_top quarter_second i = false ->
     stop_after_wait quarter_second i = false ->
     schedulable quarter_second i
       (PFloat (35 # 100), PStr "gamepad_button", PDict [("id", PInt 3)]) = true ->
     play_from quarter_second i
       ((PFloat (35 # 100), PStr "gamepad_button", PDict [("id", PInt 3)]) :: rest)
       = (waits quarter_second i
            [(PFloat (35 # 100), PStr "gamepad_button", PDict [("id", PInt 3)])]
            ++ fst (play_from quarter_second (S i) rest),
          snd (play_from quarter_second (S i) rest))).
Proof.
  apply (unknown_type_is_skipped desktop quarter_second entry_of_a_later_version
           (PFloat (35 # 100)) "gamepad_button" (PDict [("id", PInt 3)]));
    reflexivity.
Defined.

(** C9 as stated fails: an entry of an unknown type whose time lies further
    ahead than [time.sleep] accepts decodes, and the playback of the file
    ends with an exception at that entry, before the key press that follows
    it. *)
Lemma unknown_type_far_ahead_ends_playback :
  member "gamepad_button" known_kinds = false /\
  deserialize_events desktop (PList [entry_far_ahead; good_entry])
    = Ok [(PFloat 10000000000, PStr "gamepad_button", PDict [("id", PInt 3)]);
          (PFloat (10 # 100), PStr "key_press", PKeyCode None (Some "a") false)] /\
  play_macro desktop quarter_second (PList [entry_far_ahead; good_entry])
    = Played [] (Crashed OverflowError).
Proof. repeat split. Qed.

Lemma py_eq_PStr_inv (v : pyval) (s : string) :
  py_eq v (PStr s) = true -> v = PStr s.
Proof.
  destruct v; simpl; try discriminate.
  intros H. apply String.eqb_eq in H. now subst.
Qed.

Lemma is_in_inv (v : pyval) (names : list string) :
  is_in v names = true -> exists s, v = PStr s /\ member s names = true.
Proof.
  unfold is_in. intros H. apply existsb_exists in H. destruct H as (s & Hin & E).
  apply py_eq_PStr_inv in E. subst v. exists s. split; trivial.
  unfold member. apply existsb_exists. exists s. split; trivial.
  apply String.eqb_refl.
Qed.

(** C3 fails on the code: a key name and a button name that are no members
    of the enumerations, but attributes every enumeration class has, are
    found by [getattr]: the file loads, and the player issues a call for
    each entry. *)
Theorem attribute_name_is_played :
  unrecognized_name desktop entry_named_mro = true /\
  deserialize_events desktop (PList [entry_named_mro])
    = Ok [(PFloat (10 # 100), PStr "key_press", PObject "Key.mro")] /\
  play_macro desktop refuses_all (PList [entry_named_mro])
    = Played [Synth (KbPress (PObject "Key.mro")); Printed "Error on key press"]
             Finished /\
  unrecognized_name desktop click_named_mro = true /\
  deserialize_events desktop (PList [click_named_mro])
    = Ok [(PFloat (20 # 100), PStr "mouse_click",
           PTuple [PInt 10; PInt 20; PObject "Button.mro"; PBool true])] /\
  play_macro desktop refuses_all (PList [click_named_mro])
    = Played [Synth (MousePress (PObject "Button.mro"))] (Crashed OSFailure).
Proof. repeat split. Qed.

(** ** Properties of the recorder *)




Lemma count_stops_app (a b : list rec_call) :
  count_stops (a ++ b) = (count_stops a + count_stops b)%nat.
Proof.
  induction a as [ | c a IH]; simpl; trivial. destruct c; simpl; now rewrite IH.
Qed.

Lemma count_finalized_app (a b : list rec_call) :
  count_finalized (a ++ b) = (count_finalized a + count_finalized b)%nat.
Proof.
  induction a as [ | c a IH]; simpl; trivial.
  destruct c as [ | | | | [ | ] | ]; simpl; now rewrite IH.
Qed.

Lemma count_hotkey_shots_app (a b : list rec_call) :
  count_hotkey_shots (a ++ b) = (count_hotkey_shots a + count_hotkey_shots b)%nat.
Proof.
  induction a as [ | c a IH]; simpl; trivial.
  destruct c as [ | | | | [ | ] | ]; simpl; now rewrite IH.
Qed.

Lemma started_inv (callback : bool) (now : Q) :
  session_inv callback (started callback now).
Proof. destruct callback; repeat split. Qed.

(** [record_event] appends at most the event it is given, and touches
    nothing else. *)
Lemma record_event_inv (callback : bool) (now : Q) (k : string) (d : pyval)
      (s : session) :
  (forall t, recordable (t, PStr k, d) = true) ->
  session_inv callback s ->
  session_inv callback (settle s (record_event now k d s)).
Proof.
  intros Hk (I1 & I2 & I3 & I4 & I5). unfold record_event.
  destruct (recording (recorder s)) eqn:Er; simpl.
  - destruct (start_time (recorder s)) as [t0 | ]; simpl.
    + unfold session_inv. simpl. rewrite forallb_app, I2. simpl.
      rewrite Hk. repeat split; trivial.
    + unfold session_inv. rewrite Er. repeat split; trivial.
  - unfold session_inv. rewrite Er. repeat split; trivial.
Qed.

Lemma stop_recording_inv (callback : bool) (s : session) :
  session_inv callback s -> session_inv callback (fst (stop_recording s)).
Proof.
  intros (I1 & I2 & I3 & I4 & I5). unfold stop_recording.
  destruct (recording (recorder s)) eqn:Er; simpl.
  - rewrite I1. unfold session_inv.
    destruct callback; simpl;
      rewrite ?count_stops_app, ?count_finalized_app, ?count_hotkey_shots_app;
      rewrite I3, I4, I5, ?I3; simpl; rewrite ?Nat.add_0_r; repeat split; trivial.
  - unfold session_inv. rewrite Er. repeat split; trivial.
Qed.

Lemma step_inv (callback : bool) (s : session) (i : input) :
  session_inv callback s -> session_inv callback (step s i).
Proof.
  intros H. destruct i as [now key | now key | now x y | now x y b p
                           | now x y dx dy | | ]; cbn [step].
  - unfold on_key_press. destruct (py_eq key stop_hotkey) eqn:Ek.
    + destruct H as (I1 & I2 & I3 & I4 & I5).
      destruct (hotkey_triggered (recorder s)) eqn:Eh; simpl.
      * unfold session_inv. rewrite Eh. repeat split; trivial.
      * unfold session_inv. simpl.
        rewrite count_stops_app, count_finalized_app, count_hotkey_shots_app.
        rewrite I5. simpl. rewrite !Nat.add_0_r. repeat split; trivial.
    + apply record_event_inv; trivial.
      intros t. unfold recordable, is_stop_key_event. simpl. now rewrite Ek.
  - unfold on_key_release. destruct (py_eq key stop_hotkey) eqn:Ek; trivial.
    apply record_event_inv; trivial.
    intros t. unfold recordable, is_stop_key_event. simpl. now rewrite Ek.
  - exact H.
  - apply record_event_inv; trivial.
  - apply record_event_inv; trivial.
  - apply stop_recording_inv, H.
  - destruct (timers s) as [ | [ | ] rest] eqn:Et; trivial.
    + unfold stop_recording_from_hotkey. cbn [recorder].
      destruct (recording (recorder s)); [ | exact H].
      apply stop_recording_inv. exact H.
    + destruct H as (I1 & I2 & I3 & I4 & I5). unfold session_inv. simpl.
      rewrite count_stops_app, count_finalized_app, count_hotkey_shots_app.
      simpl. rewrite !Nat.add_0_r. repeat split; trivial.
Qed.

Lemma run_inv (callback : bool) (inputs : list input) :
  forall s, session_inv callback s -> session_inv callback (run s inputs).
Proof.
  unfold run. induction inputs as [ | i inputs IH]; intros s H; simpl; trivial.
  apply IH, step_inv, H.
Qed.

(** [record_event] leaves the flags of the recorder as they are. *)
Lemma record_event_flags (now : Q) (k : string) (d : pyval) (s : session) :
  recording (recorder (settle s (record_event now k d s)))
    = recording (recorder s) /\
  hotkey_triggered (recorder (settle s (record_event now k d s)))
    = hotkey_triggered (recorder s).
Proof.
  unfold record_event.
  destruct (recording (recorder s)) eqn:Er; simpl; [ | now split].
  destruct (start_time (recorder s)); simpl; now split.
Qed.

Lemma stop_recording_flags (s : session) :
  recording (recorder (fst (stop_recording s))) = false /\
  hotkey_triggered (recorder (fst (stop_recording s)))
    = hotkey_triggered (recorder s).
Proof.
  unfold stop_recording.
  destruct (recording (recorder s)) eqn:Er; simpl; [ | now split].
  destruct (on_stop (recorder s)); now split.
Qed.

Ltac flags_of_record_event :=
  unfold on_click, on_scroll;
  match goal with
  | |- context [settle ?s (record_event ?now ?k ?d ?s)] =>
      let Hr := fresh "Hr" in
      let Hh := fresh "Hh" in
      destruct (record_event_flags now k d s) as [Hr Hh]; rewrite ?Hr, ?Hh
  end.

(** The recording flag falls when the stop path runs, and only then. *)
Lemma step_recording (s : session) (i : input) :
  recording (recorder (step s i))
  = recording (recorder s) && negb (runs_stop_path s i).
Proof.
  destruct i as [now key | now key | now x y | now x y b p
                 | now x y dx dy | | ]; cbn [step runs_stop_path negb];
    rewrite ?andb_true_r, ?andb_false_r; trivial;
    try (flags_of_record_event; reflexivity).
  - unfold on_key_press. destruct (py_eq key stop_hotkey).
    + destruct (hotkey_triggered (recorder s)); reflexivity.
    + flags_of_record_event. reflexivity.
  - unfold on_key_release. destruct (py_eq key stop_hotkey); trivial.
    flags_of_record_event. reflexivity.
  - apply stop_recording_flags.
  - destruct (timers s) as [ | [ | ] rest]; cbn [negb];
      rewrite ?andb_true_r, ?andb_false_r; trivial.
    unfold stop_recording_from_hotkey. cbn [recorder].
    destruct (recording (recorder s)) eqn:E; [ | exact E].
    apply stop_recording_flags.
Qed.


Lemma run_recording (inputs : list input) :
  forall s,
  recording (recorder (run s inputs))
  = recording (recorder s) && Nat.eqb (stop_path_runs s inputs) 0.
Proof.
  unfold run. induction inputs as [ | i inputs IH]; intros s; simpl.
  - now rewrite andb_true_r.
  - rewrite IH, step_recording.
    destruct (runs_stop_path s i); simpl.
    + now rewrite !andb_false_r.
    + now rewrite andb_true_r.
Qed.


Lemma capture_inv (callback : bool) (now : Q) (inputs : list input) :
  session_inv callback (capture callback now inputs).
Proof. apply (run_inv callback inputs (started callback now)), started_inv. Qed.


Lemma recordable_not_move (e : event) :
  recordable e = true -> negb (py_eq (kind_of e) (PStr "mouse_move")) = true.
Proof.
  unfold recordable, kind_of. intros H. apply andb_prop in H. destruct H as [H _].
  apply is_in_inv in H. destruct H as (s & -> & H).
  rewrite py_eq_PStr. unfold member in H. simpl in H.
  repeat (apply orb_prop in H; destruct H as [H | H];
          [apply String.eqb_eq in H; subst s; reflexivity | ]).
  discriminate.
Qed.

Lemma forallb_weaken {A : Type} (p q : A -> bool) (l : list A) :
  (forall x, p x = true -> q x = true) ->
  forallb p l = true -> forallb q l = true.
Proof.
  intros Hpq H. rewrite forallb_forall in *. intros x Hx. apply Hpq, H, Hx.
Qed.


(** C6 (amended): the recorder registers no callback for pointer moves, so a
    pointer move changes nothing in a session and no captured event is a
    [mouse_move]; and playback never issues a pointer-move call, whatever the
    sequence it replays. *)
Theorem pointer_moves_neither_captured_nor_replayed :
  (forall s now x y, step s (PointerMoved now x y) = s) /\
  (forall callback now inputs,
     forallb (fun e => negb (py_eq (kind_of e) (PStr "mouse_move")))
             (events (recorder (capture callback now inputs))) = true) /\
  (forall env evs, existsb is_move (synth_calls (fst (play env evs))) = false).
Proof.
  split; [reflexivity | split].
  - intros callback now inputs.
    destruct (capture_inv callback now inputs) as (_ & I2 & _).
    exact (forallb_weaken _ _ _ recordable_not_move I2).
  - intros env evs. apply play_from_never_moves.
Qed.

(** C6 as stated fails: a pointer move that happens during a recording is
    not among the captured events, while the click that follows it is. *)
Lemma pointer_move_is_not_captured :
  events (recorder (capture true 0
            [PointerMoved (10 # 100) (PInt 10) (PInt 20);
             Clicked (20 # 100) (PInt 10) (PInt 20) (PButton "left") (PBool true)]))
  = [(PFloat (20 # 100), PStr "mouse_click",
      PTuple [PInt 10; PInt 20; PButton "left"; PBool true])].
Proof. reflexivity. Qed.

(** ** Further properties of the recorder *)

Lemma step_start_time (s : session) (i : input) :
  start_time (recorder (step s i)) = start_time (recorder s).
Proof.
  destruct i as [now key | now key | now x y | now x y b p
                 | now x y dx dy | | ]; cbn [step]; trivial.
  - unfold on_key_press, record_event. destruct (py_eq key stop_hotkey).
    + destruct (hotkey_triggered (recorder s)); reflexivity.
    + destruct (recording (recorder s)); simpl; trivial.
      destruct (start_time (recorder s)) eqn:E; simpl; trivial.
  - unfold on_key_release, record_event. destruct (py_eq key stop_hotkey); trivial.
    destruct (recording (recorder s)); simpl; trivial.
    destruct (start_time (recorder s)) eqn:E; simpl; trivial.
  - unfold on_click, record_event.
    destruct (recording (recorder s)); simpl; trivial.
    destruct (start_time (recorder s)) eqn:E; simpl; trivial.
  - unfold on_scroll, record_event.
    destruct (recording (recorder s)); simpl; trivial.
    destruct (start_time (recorder s)) eqn:E; simpl; trivial.
  - unfold stop_recording. destruct (recording (recorder s)); simpl; trivial.
    destruct (on_stop (recorder s)); reflexivity.
  - destruct (timers s) as [ | [ | ] rest]; trivial.
    unfold stop_recording_from_hotkey, stop_recording. cbn [recorder].
    destruct (recording (recorder s)); simpl; trivial.
    destruct (on_stop (recorder s)); reflexivity.
Qed.

(** What one step does to the events: while the recorder records, it appends
    the event the input is captured as; otherwise nothing. *)
Lemma step_events (s : session) (i : input) (t0 : Q) :
  start_time (recorder s) = Some t0 ->
  events (recorder (step s i))
  = events (recorder s)
      ++ (if recording (recorder s) then captured_as t0 i else []).
Proof.
  intros Ht.
  destruct i as [now key | now key | now x y | now x y b p
                 | now x y dx dy | | ]; cbn [step captured_as].
  - unfold on_key_press, record_event. destruct (py_eq key stop_hotkey).
    + destruct (hotkey_triggered (recorder s)); simpl;
        destruct (recording (recorder s)); now rewrite app_nil_r.
    + rewrite Ht. destruct (recording (recorder s)); simpl; trivial.
      now rewrite app_nil_r.
  - unfold on_key_release, record_event. destruct (py_eq key stop_hotkey).
    + simpl. destruct (recording (recorder s)); now rewrite app_nil_r.
    + rewrite Ht. destruct (recording (recorder s)); simpl; trivial.
      now rewrite app_nil_r.
  - destruct (recording (recorder s)); now rewrite app_nil_r.
  - unfold on_click, record_event. rewrite Ht.
    destruct (recording (recorder s)); simpl; trivial. now rewrite app_nil_r.
  - unfold on_scroll, record_event. rewrite Ht.
    destruct (recording (recorder s)); simpl; trivial. now rewrite app_nil_r.
  - unfold stop_recording.
    destruct (recording (recorder s)); simpl; rewrite ?app_nil_r; trivial.
    destruct (on_stop (recorder s)); reflexivity.
  - destruct (timers s) as [ | [ | ] rest]; simpl;
      try (destruct (recording (recorder s)); now rewrite app_nil_r).
    unfold stop_recording_from_hotkey, stop_recording. cbn [recorder].
    destruct (recording (recorder s)); simpl; rewrite ?app_nil_r; trivial.
    destruct (on_stop (recorder s)); reflexivity.
Qed.

Lemma step_idle (s : session) (i : input) :
  recording (recorder s) = false ->
  events (recorder (step s i)) = events (recorder s).
Proof.
  intros Hr.
  destruct i as [now key | now key | now x y | now x y b p
                 | now x y dx dy | | ]; cbn [step]; trivial;
    unfold on_key_press, on_key_release, on_click, on_scroll, record_event,
      stop_recording; rewrite ?Hr; simpl; trivial.
  - destruct (py_eq key stop_hotkey); trivial.
    destruct (hotkey_triggered (recorder s)); reflexivity.
  - destruct (py_eq key stop_hotkey); reflexivity.
  - destruct (timers s) as [ | [ | ] rest]; trivial.
    unfold stop_recording_from_hotkey. cbn [recorder]. now rewrite Hr.
Qed.

(** X1: a recorder that is not recording (before [start_recording], or after
    a stop) records nothing, whatever reaches its callbacks. *)
Theorem nothing_recorded_unless_recording (s : session) (inputs : list input) :
  recording (recorder s) = false ->
  events (recorder (run s inputs)) = events (recorder s) /\
  recording (recorder (run s inputs)) = false.
Proof.
  intros Hr. split.
  - revert s Hr. unfold run.
    induction inputs as [ | i inputs IH]; intros s Hr; simpl; trivial.
    rewrite IH.
    + apply step_idle, Hr.
    + rewrite step_recording, Hr. reflexivity.
  - rewrite run_recording, Hr. reflexivity.
Qed.

(** After a stop, the notifications of [typing] leave the events as they
    were. *)
Lemma nothing_recorded_unless_recording_sample :
  events (recorder (run (capture true 5 [KeyPressed 6 (PKey "f5"); StopCalled]) typing))
    = events (recorder (capture true 5 [KeyPressed 6 (PKey "f5"); StopCalled])) /\
  recording (recorder (run (capture true 5 [KeyPressed 6 (PKey "f5"); StopCalled]) typing))
    = false.
Proof.
  apply (nothing_recorded_unless_recording
           (capture true 5 [KeyPressed 6 (PKey "f5"); StopCalled]) typing).
  reflexivity.
Defined.

Lemma run_events_recording (t0 : Q) (inputs : list input) :
  forall s,
  start_time (recorder s) = Some t0 ->
  recording (recorder s) = true ->
  stop_path_runs s inputs = 0%nat ->
  events (recorder (run s inputs))
    = events (recorder s) ++ flat_map (captured_as t0) inputs.
Proof.
  unfold run. induction inputs as [ | i inputs IH]; intros s Ht Hr Hn; simpl.
  - now rewrite app_nil_r.
  - simpl in Hn. destruct (runs_stop_path s i) eqn:Ep; [discriminate | ].
    simpl in Hn. rewrite IH; trivial.
    + rewrite (step_events s i t0 Ht), Hr. now rewrite app_assoc.
    + now rewrite step_start_time.
    + rewrite step_recording, Hr, Ep. reflexivity.
Qed.

(** X2: as long as the stop path does not run, the captured events are the
    key presses, key releases, clicks and scrolls that reached the recorder,
    in their order of arrival, each stamped with the time elapsed since the
    start epoch; the stop key and pointer moves leave no event. *)
Theorem captured_events_in_arrival_order (callback : bool) (t0 : Q)
        (inputs : list input) :
  stop_path_runs (started callback t0) inputs = 0%nat ->
  events (recorder (capture callback t0 inputs))
    = flat_map (captured_as t0) inputs.
Proof.
  intros Hn.
  exact (run_events_recording t0 inputs (started callback t0) eq_refl eq_refl Hn).
Qed.

Lemma captured_events_in_arrival_order_sample :
  events (recorder (capture true 5 typing)) = flat_map (captured_as 5) typing.
Proof.
  apply (captured_events_in_arrival_order true 5 typing). reflexivity.
Defined.

Lemma stamps_app (l m : list event) : stamps (l ++ m) = stamps l ++ stamps m.
Proof.
  induction l as [ | e l IH]; simpl; trivial.
  destruct (num_of (time_of e)); simpl; now rewrite IH.
Qed.

Lemma ascending_raise_last (l : list Q) :
  forall a x y,
  ascending_from a (l ++ [x]) = true -> Qle x y ->
  ascending_from a (l ++ [y]) = true.
Proof.
  induction l as [ | q l IH]; simpl; intros a x y H Hxy.
  - rewrite andb_true_r in *. apply Qle_bool_iff in H. apply Qle_bool_iff.
    now apply Qle_trans with x.
  - apply andb_prop in H. destruct H as [H1 H2].
    rewrite H1. simpl. now apply IH with x.
Qed.

Lemma ascending_repeat_last (l : list Q) :
  forall a x,
  ascending_from a (l ++ [x]) = true ->
  ascending_from a ((l ++ [x]) ++ [x]) = true.
Proof.
  induction l as [ | q l IH]; simpl; intros a x H.
  - rewrite andb_true_r in *. rewrite H. simpl.
    apply Qle_bool_iff, Qle_refl.
  - apply andb_prop in H. destruct H as [H1 H2].
    rewrite H1. simpl. now apply IH.
Qed.

Lemma ascending_prefix (l m : list Q) :
  forall a, ascending_from a (l ++ m) = true -> ascending_from a l = true.
Proof.
  induction l as [ | q l IH]; simpl; intros a H; trivial.
  apply andb_prop in H. destruct H as [H1 H2]. rewrite H1. simpl. now apply IH.
Qed.

Lemma captured_as_stamps (t0 : Q) (i : input) :
  captured_as t0 i = [] \/
  exists now k d,
    clock_of i = Some now /\ captured_as t0 i = [(PFloat (now - t0), k, d)].
Proof.
  destruct i as [now key | now key | now x y | now x y b p
                 | now x y dx dy | | ]; simpl; auto.
  - destruct (py_eq key stop_hotkey); auto. right. now exists now, (PStr "key_press"), key.
  - destruct (py_eq key stop_hotkey); auto. right. now exists now, (PStr "key_release"), key.
  - right. now exists now, (PStr "mouse_click"), (PTuple [x; y; b; p]).
  - right. now exists now, (PStr "mouse_scroll"), (PTuple [x; y; dx; dy]).
Qed.

(** The timestamps stay in order, and below the latest reading of the clock,
    through every step. *)
Lemma run_stamps (t0 : Q) (inputs : list input) :
  forall s c,
  start_time (recorder s) = Some t0 ->
  ascending_from 0 (stamps (events (recorder s)) ++ [c - t0]) = true ->
  clock_monotone c inputs = true ->
  exists c',
    ascending_from 0 (stamps (events (recorder (run s inputs))) ++ [c' - t0])
    = true.
Proof.
  unfold run. induction inputs as [ | i inputs IH]; intros s c Ht Ha Hm; simpl.
  - now exists c.
  - simpl in Hm.
    assert (Ht' : start_time (recorder (step s i)) = Some t0)
      by now rewrite step_start_time.
    pose proof (step_events s i t0 Ht) as He.
    destruct (clock_of i) as [now | ] eqn:Ec.
    + apply andb_prop in Hm. destruct Hm as [Hc Hm].
      apply Qle_bool_iff in Hc.
      assert (Hle : Qle (c - t0) (now - t0)).
      { unfold Qminus. apply Qplus_le_compat; [exact Hc | apply Qle_refl]. }
      pose proof (ascending_raise_last _ _ _ _ Ha Hle) as Ha'.
      apply (IH (step s i) now Ht'); trivial. rewrite He.
      destruct (recording (recorder s)); [ | now rewrite app_nil_r].
      destruct (captured_as_stamps t0 i) as [-> | (n & k & d & En & ->)].
      * now rewrite app_nil_r.
      * rewrite Ec in En. injection En as <-.
        rewrite stamps_app. simpl. now apply ascending_repeat_last.
    + apply (IH (step s i) c Ht'); trivial. rewrite He.
      destruct (recording (recorder s)); [ | now rewrite app_nil_r].
      destruct (captured_as_stamps t0 i) as [-> | (n & k & d & En & _)].
      * now rewrite app_nil_r.
      * rewrite Ec in En. discriminate.
Qed.

(** A property of events that holds of the events already captured and of
    whatever the inputs are captured as holds of the events of the session
    after the inputs. *)
Lemma run_events_forall (ok : event -> bool) (t0 : Q) (inputs : list input) :
  forall s,
  start_time (recorder s) = Some t0 ->
  forallb (fun i => forallb ok (captured_as t0 i)) inputs = true ->
  forallb ok (events (recorder s)) = true ->
  forallb ok (events (recorder (run s inputs))) = true.
Proof.
  unfold run. induction inputs as [ | i inputs IH]; intros s Ht Hi Hs; simpl; trivial.
  simpl in Hi. apply andb_prop in Hi. destruct Hi as [Hi Hrest].
  apply IH; trivial.
  - now rewrite step_start_time.
  - rewrite (step_events s i t0 Ht), forallb_app, Hs.
    destruct (recording (recorder s)); trivial.
Qed.

Lemma captured_as_timed (t0 : Q) (i : input) :
  forallb timed (captured_as t0 i) = true.
Proof.
  destruct i as [now key | now key | now x y | now x y b p
                 | now x y dx dy | | ]; simpl; trivial;
    destruct (py_eq key stop_hotkey); reflexivity.
Qed.

(** X3: every captured event carries a number as its timestamp; and when
    the readings of the clock that the callbacks take, listed in the order
    in which the callbacks append their events, never go back from the start
    epoch on, these timestamps are not negative and never decrease along the
    list of events. *)
Theorem captured_timestamps_ascend (callback : bool) (t0 : Q)
        (inputs : list input) :
  clock_monotone t0 inputs = true ->
  forallb timed (events (recorder (capture callback t0 inputs))) = true /\
  ascending_from 0 (stamps (events (recorder (capture callback t0 inputs))))
  = true.
Proof.
  intros Hm. split.
  - apply (run_events_forall timed t0 inputs (started callback t0)); trivial.
    apply forallb_forall. intros i _. apply captured_as_timed.
  - destruct (run_stamps t0 inputs (started callback t0) t0 eq_refl) as [c' H];
      trivial.
    + simpl. rewrite andb_true_r. apply Qle_bool_iff.
      unfold Qminus. rewrite Qplus_opp_r. apply Qle_refl.
    + exact (ascending_prefix _ _ _ H).
Qed.

Lemma captured_timestamps_ascend_sample :
  forallb timed (events (recorder (capture true 5 typing))) = true /\
  ascending_from 0 (stamps (events (recorder (capture true 5 typing)))) = true.
Proof.
  apply (captured_timestamps_ascend true 5 typing). reflexivity.
Defined.

(** ** Further properties of the codec *)

(** Splits the goal along the first call that may raise in a hypothesis. *)
Ltac split_bind H :=
  match type of H with
  | context [bind ?r _] =>
      let E := fresh "E" in
      destruct r eqn:E; cbn [bind] in H; [ | discriminate H]
  end.

(** The encoding of an event is an object with the three fields [time],
    [type] and [data], the first two being those of the event. *)
Lemma serialize_event_shape (P : Platform) (e : event) (j : pyval) :
  serialize_event P e = Ok j ->
  exists d, j = PDict [("time", time_of e); ("type", kind_of e); ("data", d)].
Proof.
  destruct e as [[t k] d]. unfold serialize_event, time_of, kind_of. cbn [fst snd].
  intros H.
  destruct (is_in k ["key_press"; "key_release"]).
  { split_bind H. injection H as <-. eexists. reflexivity. }
  destruct (py_eq k (PStr "mouse_move")).
  { do 2 split_bind H. injection H as <-. eexists. reflexivity. }
  destruct (py_eq k (PStr "mouse_click")).
  { split_bind H. destruct a as [[[x y] b] p]. split_bind H.
    injection H as <-. eexists. reflexivity. }
  destruct (py_eq k (PStr "mouse_scroll")).
  { split_bind H. destruct a as [[[x y] dx] dy].
    injection H as <-. eexists. reflexivity. }
  injection H as <-. eexists. reflexivity.
Qed.

(** A decoded event has the [time] and the [type] of its entry. *)
Lemma deserialize_event_fields (P : Platform) (j : pyval) (e : event) :
  deserialize_event P j = Ok e ->
  field j "time" = Some (time_of e) /\ field j "type" = Some (kind_of e).
Proof.
  unfold deserialize_event. rewrite !getitem_field. intros H.
  destruct (field j "time") as [t | ]; [ | discriminate].
  destruct (field j "type") as [k | ]; [ | discriminate].
  destruct (field j "data") as [d | ]; [ | discriminate].
  cbn [bind] in H.
  destruct (is_in k ["key_press"; "key_release"]).
  { split_bind H. injection H as <-. now split. }
  destruct (py_eq k (PStr "mouse_move")).
  { do 2 split_bind H. injection H as <-. now split. }
  destruct (py_eq k (PStr "mouse_click")).
  { do 5 split_bind H. injection H as <-. now split. }
  destruct (py_eq k (PStr "mouse_scroll")).
  { do 4 split_bind H. injection H as <-. now split. }
  injection H as <-. now split.
Qed.

(** X4: whatever the event and whatever its key, the codec keeps its
    timestamp and its kind: an event that is encoded and decoded comes back
    with the time and the type it had. *)
Theorem codec_keeps_time_and_kind (P : Platform) (e e' : event) (j : pyval) :
  serialize_event P e = Ok j ->
  deserialize_event P j = Ok e' ->
  time_of e' = time_of e /\ kind_of e' = kind_of e.
Proof.
  intros Hs Hd.
  destruct (serialize_event_shape P e j Hs) as [d ->].
  destruct (deserialize_event_fields P _ e' Hd) as [Ht Hk].
  simpl in Ht, Hk. injection Ht as Ht. injection Hk as Hk. now split.
Qed.

Lemma codec_keeps_time_and_kind_sample :
  time_of keypad_decoded = time_of keypad_press /\
  kind_of keypad_decoded = kind_of keypad_press.
Proof.
  apply (codec_keeps_time_and_kind desktop keypad_press keypad_decoded keypad_entry);
    reflexivity.
Defined.

Lemma is_in_cons (v : pyval) (s : string) (names : list string) :
  is_in v (s :: names) = py_eq v (PStr s) || is_in v names.
Proof. reflexivity. Qed.

(** X5: an event whose type is none of the five kinds goes through the codec
    unchanged: its data is stored as it is and comes back as it was. *)
Theorem unknown_kind_roundtrip (P : Platform) (t kind d : pyval) :
  is_in kind known_kinds = false ->
  serialize_event P (t, kind, d)
    = Ok (PDict [("time", t); ("type", kind); ("data", d)]) /\
  deserialize_event P (PDict [("time", t); ("type", kind); ("data", d)])
    = Ok (t, kind, d).
Proof.
  unfold known_kinds. rewrite !is_in_cons. intros H.
  repeat (apply orb_false_elim in H; destruct H as [? H]).
  assert (G1 : getitem (PDict [("time", t); ("type", kind); ("data", d)]) "time"
               = Ok t) by reflexivity.
  assert (G2 : getitem (PDict [("time", t); ("type", kind); ("data", d)]) "type"
               = Ok kind) by reflexivity.
  assert (G3 : getitem (PDict [("time", t); ("type", kind); ("data", d)]) "data"
               = Ok d) by reflexivity.
  unfold serialize_event, deserialize_event. rewrite G1, G2, G3. cbn [bind].
  rewrite !is_in_cons.
  repeat match goal with E : py_eq kind _ = false |- _ => rewrite E; clear E end.
  split; reflexivity.
Qed.

Lemma unknown_kind_roundtrip_sample :
  serialize_event desktop (PFloat (35 # 100), PStr "gamepad_button", PTuple [PInt 3])
    = Ok (PDict [("time", PFloat (35 # 100)); ("type", PStr "gamepad_button");
                 ("data", PTuple [PInt 3])]) /\
  deserialize_event desktop
      (PDict [("time", PFloat (35 # 100)); ("type", PStr "gamepad_button");
              ("data", PTuple [PInt 3])])
    = Ok (PFloat (35 # 100), PStr "gamepad_button", PTuple [PInt 3]).
Proof.
  apply (unknown_kind_roundtrip desktop (PFloat (35 # 100)) (PStr "gamepad_button")
           (PTuple [PInt 3])).
  reflexivity.
Defined.

Lemma delivered_storable (P : Platform) (t0 : Q) (i : input) :
  delivered P i = true -> forallb (storable P) (captured_as t0 i) = true.
Proof.
  destruct i as [now key | now key | now x y | now x y b p
                 | now x y dx dy | | ]; simpl; trivial.
  - destruct (py_eq key stop_hotkey); trivial. intros H.
    apply andb_prop in H. destruct H as [Hk Hm].
    cbn [forallb]. rewrite andb_true_r.
    destruct key as [ | | | | | | | | [vk | ] [c | ] [ | ] | n | | | ];
      try discriminate; try reflexivity.
    unfold storable, serialize_event, deserialize_event, deserialize_key,
      getattr. simpl. unfold member in Hm. now rewrite Hm.
  - destruct (py_eq key stop_hotkey); trivial. intros H.
    apply andb_prop in H. destruct H as [Hk Hm].
    cbn [forallb]. rewrite andb_true_r.
    destruct key as [ | | | | | | | | [vk | ] [c | ] [ | ] | n | | | ];
      try discriminate; try reflexivity.
    unfold storable, serialize_event, deserialize_event, deserialize_key,
      getattr. simpl. unfold member in Hm. now rewrite Hm.
  - destruct b; try discriminate. intros Hm. cbn [forallb]. rewrite andb_true_r.
    unfold storable, serialize_event, deserialize_event,
      deserialize_mouse_button, getattr. simpl.
    unfold member in Hm. now rewrite Hm.
Qed.

Lemma storable_traverse (P : Platform) (evs : list event) :
  forallb (storable P) evs = true ->
  exists l evs',
    traverse (serialize_event P) evs = Ok l /\
    traverse (deserialize_event P) l = Ok evs' /\
    map time_of evs' = map time_of evs /\
    map kind_of evs' = map kind_of evs.
Proof.
  induction evs as [ | e evs IH]; simpl; intros H.
  - exists [], []. repeat split.
  - apply andb_prop in H. destruct H as [He Hs].
    destruct (IH Hs) as (l & evs' & Hl & Hd & Ht & Hk).
    unfold storable in He.
    destruct (serialize_event P e) as [j | ] eqn:Ej; [ | discriminate].
    cbn [bind] in He.
    destruct (deserialize_event P j) as [e' | ] eqn:Ee; [ | discriminate].
    destruct (serialize_event_shape P e j Ej) as [d ->].
    destruct (deserialize_event_fields P _ e' Ee) as [Ft Fk].
    simpl in Ft, Fk. injection Ft as Ft. injection Fk as Fk.
    exists (PDict [("time", time_of e); ("type", kind_of e); ("data", d)] :: l),
           (e' :: evs').
    rewrite Hl. simpl traverse. rewrite Ee, Hd. simpl.
    rewrite Ht, Hk, <- Ft, <- Fk. repeat split.
Qed.

(** X6: a macro captured from what a listener delivers can always be
    encoded, and its encoding decoded; the decoded macro has as many events,
    with the same timestamps and the same kinds, in the same order. *)
Theorem captured_macro_survives_codec (P : Platform) (callback : bool) (t0 : Q)
        (inputs : list input) :
  forallb (delivered P) inputs = true ->
  exists j evs',
    serialize_events P (events (recorder (capture callback t0 inputs))) = Ok j /\
    deserialize_events P j = Ok evs' /\
    map time_of evs' = map time_of (events (recorder (capture callback t0 inputs))) /\
    map kind_of evs' = map kind_of (events (recorder (capture callback t0 inputs))).
Proof.
  intros Hd.
  assert (Hs : forallb (storable P)
                 (events (recorder (capture callback t0 inputs))) = true).
  { apply (run_events_forall (storable P) t0 inputs (started callback t0));
      trivial.
    rewrite forallb_forall in *. intros i Hi.
    apply delivered_storable, Hd, Hi. }
  destruct (storable_traverse P _ Hs) as (l & evs' & Hl & Hd' & Ht & Hk).
  exists (PList l), evs'. unfold serialize_events, deserialize_events.
  rewrite Hl. cbn [bind iterate]. now rewrite Hd'.
Qed.

Lemma captured_macro_survives_codec_sample :
  exists j evs',
    serialize_events desktop (events (recorder (capture true 5 typing))) = Ok j /\
    deserialize_events desktop j = Ok evs' /\
    map time_of evs' = map time_of (events (recorder (capture true 5 typing))) /\
    map kind_of evs' = map kind_of (events (recorder (capture true 5 typing))).
Proof.
  apply (captured_macro_survives_codec desktop true 5 typing). reflexivity.
Defined.

(** ** Further properties of the player *)

Lemma synthesize_sleep_ok (r : bool) (k d : pyval) :
  forallb sleep_ok (fst (synthesize r k d)) = true.
Proof.
  unfold synthesize.
  destruct (py_eq k (PStr "key_press")); [destruct r; reflexivity | ].
  destruct (py_eq k (PStr "key_release")); [destruct r; reflexivity | ].
  destruct (py_eq k (PStr "mouse_click")).
  { destruct (unpack4 d) as [[[[x y] b] p] | ]; reflexivity. }
  destruct (py_eq k (PStr "mouse_scroll")).
  { destruct (unpack4 d) as [[[[x y] dx] dy] | ]; reflexivity. }
  reflexivity.
Qed.

Lemma wait_before_sleep_ok (env : player_env) (i : nat) (t : pyval)
      (waited : list effect) :
  wait_before env i t = Ok waited -> forallb sleep_ok waited = true.
Proof.
  intros H. destruct (wait_before_inv env i t waited H) as [-> | (q & -> & Hq)];
    simpl; trivial. now rewrite Hq.
Qed.

(** X7: the player never sleeps for a time that is zero or negative, however
    late it is and whatever the timestamps are. *)
Theorem sleeps_are_positive (env : player_env) (evs : list event) :
  forallb sleep_ok (fst (play env evs)) = true.
Proof.
  unfold play. generalize 0%nat as i.
  induction evs as [ | [[et ek] ed] rest IH]; intros i; simpl; trivial.
  destruct (stop_at_top env i); trivial.
  destruct (wait_before env i et) as [waited | ] eqn:Ew; trivial.
  pose proof (wait_before_sleep_ok env i et waited Ew) as Hw.
  destruct (stop_after_wait env i); [exact Hw | ].
  pose proof (synthesize_sleep_ok (refused env i) ek ed) as Hs.
  destruct (synthesize (refused env i) ek ed) as [out [x | ]]; simpl in *.
  - now rewrite forallb_app, Hw.
  - specialize (IH (S i)). destruct (play_from env (S i) rest) as [later en].
    simpl in *. now rewrite !forallb_app, Hw, Hs, IH.
Qed.

Lemma synthesize_one_call (r : bool) (k d : pyval) :
  (List.length (synth_calls (fst (synthesize r k d))) <= 1)%nat.
Proof.
  unfold synthesize.
  destruct (py_eq k (PStr "key_press")); [destruct r; simpl; lia | ].
  destruct (py_eq k (PStr "key_release")); [destruct r; simpl; lia | ].
  destruct (py_eq k (PStr "mouse_click")).
  { destruct (unpack4 d) as [[[[x y] b] p] | ]; simpl; lia. }
  destruct (py_eq k (PStr "mouse_scroll")).
  { destruct (unpack4 d) as [[[[x y] dx] dy] | ]; simpl; lia. }
  simpl; lia.
Qed.

(** X8: a run issues at most one synthesis call per event of the sequence,
    whether it finishes, is cancelled or ends with an exception. *)
Theorem at_most_one_call_per_event (env : player_env) (evs : list event) :
  (List.length (synth_calls (fst (play env evs))) <= List.length evs)%nat.
Proof.
  unfold play. generalize 0%nat as i.
  induction evs as [ | [[et ek] ed] rest IH]; intros i; simpl; [lia | ].
  destruct (stop_at_top env i); simpl; [lia | ].
  destruct (wait_before env i et) as [waited | ] eqn:Ew; simpl; [ | lia].
  pose proof (wait_before_calls env i et waited Ew) as Hw.
  destruct (stop_after_wait env i).
  { simpl. rewrite Hw. simpl. lia. }
  pose proof (synthesize_one_call (refused env i) ek ed) as Hs.
  destruct (synthesize (refused env i) ek ed) as [out [x | ]]; simpl in *.
  - rewrite synth_calls_app, Hw. simpl. lia.
  - specialize (IH (S i)). destruct (play_from env (S i) rest) as [later en].
    simpl in *. rewrite !synth_calls_app, Hw, !length_app.
    simpl. lia.
Qed.

Lemma synthesize_no_pointer (r : bool) (k d : pyval) :
  is_in k ["mouse_click"; "mouse_scroll"] = false ->
  snd (synthesize r k d) = None.
Proof.
  rewrite !is_in_cons. intros H.
  apply orb_false_elim in H. destruct H as [Hc H].
  apply orb_false_elim in H. destruct H as [Hs _].
  unfold synthesize. rewrite Hc, Hs.
  destruct (py_eq k (PStr "key_press")); [destruct r; reflexivity | ].
  destruct (py_eq k (PStr "key_release")); [destruct r; reflexivity | ].
  reflexivity.
Qed.

Lemma play_from_no_pointer (env : player_env) (evs : list event) :
  forall i,
  forallb no_pointer_call evs = true ->
  all_schedulable env i evs = true ->
  crashed (snd (play_from env i evs)) = false /\
  (unstopped env i (List.length evs) = true ->
   snd (play_from env i evs) = Finished).
Proof.
  induction evs as [ | [[et ek] ed] rest IH]; intros i H Hw.
  - split; reflexivity.
  - cbn [forallb all_schedulable] in H, Hw.
    apply andb_prop in H. destruct H as [He Hrest].
    apply andb_prop in Hw. destruct Hw as [Hw Hwrest].
    unfold no_pointer_call, timed, time_of, kind_of in He. cbn [fst snd] in He.
    apply andb_prop in He. destruct He as [Ht Hk].
    apply negb_true_iff in Hk.
    pose proof (synthesize_no_pointer (refused env i) ek ed Hk) as Hs.
    destruct (IH (S i) Hrest Hwrest) as [IHc IHf].
    apply wait_before_schedulable in Hw. unfold time_of in Hw. cbn [fst] in Hw.
    cbn [play_from List.length unstopped].
    destruct (stop_at_top env i); [split; [reflexivity | discriminate] | ].
    rewrite Hw.
    destruct (stop_after_wait env i); [split; [reflexivity | discriminate] | ].
    destruct (synthesize (refused env i) ek ed) as [out [x | ]];
      [discriminate | ].
    destruct (play_from env (S i) rest) as [later en]. cbn [snd] in *.
    split; [exact IHc | exact IHf].
Qed.

(** X9: a macro without clicks and scrolls, each of its timestamps being a
    number the player can wait for, never ends with an exception, whatever
    the operating system refuses: the failures of key calls are caught.
    When no cancellation is observed, it is replayed to its end. *)
Theorem keyboard_macro_never_crashes (env : player_env) (evs : list event) :
  forallb no_pointer_call evs = true ->
  all_schedulable env 0 evs = true ->
  crashed (snd (play env evs)) = false /\
  (unstopped env 0 (List.length evs) = true -> snd (play env evs) = Finished).
Proof. intros H Hw. exact (play_from_no_pointer env evs 0%nat H Hw). Qed.

Lemma keyboard_macro_never_crashes_sample :
  crashed (snd (play refuses_all keys_only)) = false /\
  (unstopped refuses_all 0 (List.length keys_only) = true ->
   snd (play refuses_all keys_only) = Finished).
Proof.
  apply (keyboard_macro_never_crashes refuses_all keys_only); reflexivity.
Defined.

Lemma forget_position_fields (e : event) :
  time_of (forget_position e) = time_of e /\
  kind_of (forget_position e) = kind_of e.
Proof.
  destruct e as [[t k] d]. unfold forget_position.
  destruct (is_in k ["mouse_click"; "mouse_scroll"]); [ | now split].
  destruct d as [ | | | | | | [ | x [ | y [ | a [ | b [ | ? ?]]]]] | | | | | | ];
    now split.
Qed.

Lemma forget_position_synthesize (r : bool) (e : event) :
  synthesize r (kind_of (forget_position e)) (data_of (forget_position e))
  = synthesize r (kind_of e) (data_of e).
Proof.
  destruct e as [[t k] d]. unfold forget_position.
  destruct (is_in k ["mouse_click"; "mouse_scroll"]) eqn:Ek; trivial.
  destruct d as [ | | | | | | [ | x [ | y [ | a [ | b [ | ? ?]]]]] | | | | | | ];
    trivial.
  apply is_in_inv in Ek. destruct Ek as (s & -> & Hm).
  unfold member in Hm. simpl in Hm.
  repeat (apply orb_prop in Hm; destruct Hm as [Hm | Hm];
          [apply String.eqb_eq in Hm; subst s; reflexivity | ]).
  discriminate.
Qed.

(** X10: the position recorded with a click or a scroll plays no part in
    playback: a macro whose positions are forgotten is replayed with the
    same effects and the same ending. *)
Theorem recorded_positions_are_ignored (env : player_env) (evs : list event) :
  play env (map forget_position evs) = play env evs.
Proof.
  unfold play. generalize 0%nat as i.
  induction evs as [ | e rest IH]; intros i; trivial.
  pose proof (forget_position_fields e) as [Ht Hk].
  pose proof (forget_position_synthesize (refused env i) e) as Hs.
  destruct (forget_position e) as [[t' k'] d'] eqn:Ef.
  destruct e as [[t k] d].
  unfold time_of, kind_of, data_of in *. cbn [fst snd] in *. subst t' k'.
  cbn [map play_from]. rewrite Ef, Hs, IH. reflexivity.
Qed.

(** ** Further properties of loading *)

Lemma getattr_unknown (mk : string -> pyval) (members : list string)
      (attributes : list (string * pyval)) (n : pyval) :
  names_attribute n members attributes = false ->
  is_ok (getattr mk members attributes n) = false.
Proof.
  destruct n; simpl; trivial. unfold member.
  destruct (existsb (String.eqb s) members); [discriminate | ].
  destruct (assoc s attributes); [discriminate | reflexivity].
Qed.

(** An entry that misses a required field or carries a name [getattr] does
    not find does not decode. *)
Lemma malformed_entry_raises (P : Platform) (entry : pyval) :
  missing_required entry || unknown_name P entry = true ->
  is_ok (deserialize_event P entry) = false.
Proof.
  unfold deserialize_event, missing_required, unknown_name.
  rewrite !getitem_field.
  destruct (field entry "time") as [t | ]; [ | reflexivity].
  destruct (field entry "type") as [kind | ]; [ | reflexivity].
  destruct (field entry "data") as [data | ]; [ | reflexivity].
  cbn [bind].
  destruct (is_in kind ["key_press"; "key_release"]) eqn:Ekey.
  - (* a key event *)
    unfold deserialize_key, lacks. rewrite !getitem_field.
    destruct (field data "vtype") as [vtype | ]; [ | reflexivity].
    cbn [bind].
    destruct (py_eq vtype (PStr "KeyCode")) eqn:E1.
    + apply py_eq_PStr_inv in E1. subst vtype. simpl py_eq.
      destruct (field data "char"); [ | reflexivity].
      destruct (field data "name"); discriminate.
    + destruct (py_eq vtype (PStr "Key")) eqn:E2.
      * destruct (field data "name") as [n | ]; [ | reflexivity].
        simpl. intros H. apply negb_true_iff in H.
        pose proof (getattr_unknown PKey _ _ n H) as G.
        destruct (getattr PKey (Key_members P) (Key_attributes P) n);
          [discriminate | reflexivity].
      * destruct (field data "name"); discriminate.
  - destruct (py_eq kind (PStr "mouse_move")) eqn:Em.
    { apply py_eq_PStr_inv in Em. subst kind. simpl py_eq. unfold lacks.
      rewrite !getitem_field.
      destruct (field data "x"); [ | reflexivity].
      destruct (field data "y"); [discriminate | reflexivity]. }
    destruct (py_eq kind (PStr "mouse_click")) eqn:Ec.
    { unfold lacks, deserialize_mouse_button. rewrite !getitem_field.
      destruct (field data "button") as [n | ];
        [ | destruct (field data "x"), (field data "y"); reflexivity].
      cbn [bind].
      destruct (names_attribute n (Button_members P) (Button_attributes P)) eqn:En.
      - destruct (getattr PButton (Button_members P) (Button_attributes P) n);
          [ | reflexivity].
        cbn [bind].
        destruct (field data "x"); [ | reflexivity].
        destruct (field data "y"); [ | reflexivity].
        destruct (field data "pressed"); [discriminate | reflexivity].
      - intros _.
        pose proof (getattr_unknown PButton _ _ n En) as G.
        destruct (getattr PButton (Button_members P) (Button_attributes P) n);
          [discriminate | reflexivity]. }
    destruct (py_eq kind (PStr "mouse_scroll")) eqn:Es; [ | discriminate].
    unfold lacks. rewrite !getitem_field.
    destruct (field data "x"); [ | reflexivity].
    destruct (field data "y"); [ | reflexivity].
    destruct (field data "dx"); [ | reflexivity].
    destruct (field data "dy"); [discriminate | reflexivity].
Qed.

(** X17: a macro file one of whose entries misses a required field, or
    carries a key or button name that is the name of no attribute of the
    enumeration class, does not load: decoding ends with an exception,
    [play_macro] reports it, and no effect of playback takes place. *)
Theorem unloadable_macro_is_not_played (P : Platform) (env : player_env)
        (entries : list pyval) (entry : pyval) :
  In entry entries ->
  missing_required entry || unknown_name P entry = true ->
  exists cause,
    deserialize_events P (PList entries) = Raise cause /\
    play_macro P env (PList entries) = MalformedMacro cause /\
    effects_of (play_macro P env (PList entries)) = [].
Proof.
  intros Hin Hbad.
  pose proof (traverse_raises (deserialize_event P) entries entry Hin
                (malformed_entry_raises P entry Hbad)) as H.
  unfold play_macro, deserialize_events. cbn [iterate bind].
  destruct (traverse (deserialize_event P) entries) as [evs | cause];
    [discriminate | ].
  exists cause. repeat split.
Qed.

(** A file whose second entry has no [type]. *)
Lemma unloadable_macro_is_not_played_sample :
  exists cause,
    deserialize_events desktop (PList [good_entry; entry_without_type])
      = Raise cause /\
    play_macro desktop quarter_second (PList [good_entry; entry_without_type])
      = MalformedMacro cause /\
    effects_of (play_macro desktop quarter_second
                  (PList [good_entry; entry_without_type])) = [].
Proof.
  apply (unloadable_macro_is_not_played desktop quarter_second
           [good_entry; entry_without_type] entry_without_type).
  - right. left. reflexivity.
  - reflexivity.
Defined.

(** A file whose entry names a key that does not exist: the cause is the
    [AttributeError] of [getattr]. *)
Lemma unknown_key_name_is_reported :
  unknown_name desktop entry_named_hyper = true /\
  play_macro desktop quarter_second (PList [good_entry; entry_named_hyper])
    = MalformedMacro (AttributeError "hyper").
Proof. split; reflexivity. Qed.

(** X18: an event whose time lies further ahead than [time.sleep] accepts
    ends the run with [OverflowError] when the player comes to it: nothing
    is slept, neither the event nor any later one is synthesized. *)
Theorem far_ahead_event_ends_playback (env : player_env) (i : nat) (q : Q)
        (kind data : pyval) (rest : list event) :
  stop_at_top env i = false ->
  Qle_bool (q - elapsed env i) 0 = false ->
  Qle_bool (q - elapsed env i) (sleep_limit env) = false ->
  play_from env i ((PFloat q, kind, data) :: rest) = ([], Crashed OverflowError).
Proof.
  intros H1 H2 H3. cbn [play_from]. rewrite H1.
  unfold wait_before, subtract_elapsed. cbn [bind above_zero sleep].
  unfold positive. now rewrite H2, H3.
Qed.

Lemma far_ahead_event_ends_playback_sample :
  play_from quarter_second 0 ((PFloat 10000000000, PStr "key_press", PKey "f5") :: keys_only)
  = ([], Crashed OverflowError).
Proof.
  apply (far_ahead_event_ends_playback quarter_second 0 10000000000
           (PStr "key_press") (PKey "f5") keys_only); reflexivity.
Defined.

(** The other times the player cannot wait for: an integer too large for a
    float, whatever its sign, and an infinite time end the run with
    [OverflowError], what is no number with [TypeError]; a time that is
    [nan] is not waited for at all. *)
Lemma unwaitable_times :
  play quarter_second [(PInt (10 ^ 400), PStr "key_press", PKey "f5")]
    = ([], Crashed OverflowError) /\
  play quarter_second [(PInt (- 10 ^ 400), PStr "key_press", PKey "f5")]
    = ([], Crashed OverflowError) /\
  play quarter_second [(PNonFinite PlusInfinity, PStr "key_press", PKey "f5")]
    = ([], Crashed OverflowError) /\
  play quarter_second [(PStr "soon", PStr "key_press", PKey "f5")]
    = ([], Crashed TypeError) /\
  play quarter_second [(PNonFinite NaN, PStr "key_press", PKey "f5")]
    = ([Synth (KbPress (PKey "f5"))], Finished).
Proof. repeat split. Qed.

(** ** Properties of macro files *)

(** Writing a value that [json.load] could have produced and reading it back
    gives the value. *)
Fixpoint json_dump_json (v : pyval) : is_json v = true -> json_dump v = Ok v.
Proof.
  destruct v as [ | b | z | q | s | l | l | d | vk c dead | n | n | | ];
    simpl; intros H; try reflexivity; try discriminate.
  - induction l as [ | x l IHl]; [reflexivity | ].
    simpl in H. apply andb_prop in H. destruct H as [Hx Hl].
    rewrite (json_dump_json x Hx). specialize (IHl Hl).
    destruct ((fix items (l0 : list pyval) : result (list pyval) := _) l)
      as [l' | e]; [ | discriminate].
    injection IHl as ->. reflexivity.
  - induction d as [ | [k x] d IHd]; [reflexivity | ].
    simpl in H. apply andb_prop in H. destruct H as [Hx Hd].
    rewrite (json_dump_json x Hx). specialize (IHd Hd).
    destruct ((fix bindings (d0 : list (string * pyval)) :
                 result (list (string * pyval)) := _) d)
      as [d' | e]; [ | discriminate].
    injection IHd as ->. reflexivity.
Qed.

(** X11: a macro file whose top level is not an array does not load: decoding
    raises [TypeError], except for an empty string and an empty object, which
    load as the macro without events. *)
Theorem file_must_hold_an_array (P : Platform) (v : pyval) :
  is_json v = true ->
  is_array v = false ->
  deserialize_events P v = (if is_empty v then Ok [] else Raise TypeError).
Proof.
  destruct v as [ | b | z | q | s | l | l | d | vk c dead | n | n | | ];
    try discriminate; intros _ _; try reflexivity.
  - destruct s as [ | c s]; reflexivity.
  - destruct d as [ | [k x] d]; reflexivity.
Qed.

Lemma file_must_hold_an_array_sample :
  deserialize_events desktop good_entry
  = (if is_empty good_entry then Ok [] else Raise TypeError).
Proof.
  apply (file_must_hold_an_array desktop good_entry); reflexivity.
Defined.

Lemma assoc_dict_set_same {A : Type} (k : string) (v : A) (d : list (string * A)) :
  assoc k (dict_set k v d) = Some v.
Proof.
  induction d as [ | [k' v'] d IH]; simpl.
  - now rewrite String.eqb_refl.
  - destruct (String.eqb k k') eqn:E; simpl.
    + now rewrite String.eqb_refl.
    + now rewrite E.
Qed.

Lemma assoc_dict_set_other {A : Type} (k k' : string) (v : A)
      (d : list (string * A)) :
  String.eqb k' k = false -> assoc k' (dict_set k v d) = assoc k' d.
Proof.
  intros Hk. induction d as [ | [k0 v0] d IH]; simpl.
  - now rewrite Hk.
  - destruct (String.eqb k k0) eqn:E; simpl.
    + apply String.eqb_eq in E. subst k0. now rewrite Hk.
    + now rewrite IH.
Qed.

(** The name of a saved file is neither empty nor the placeholder of the
    list of macros. *)
Lemma saved_name_is_a_selection (name : string) :
  ((String.append name ".json" =? "") ||
   (String.append name ".json" =? "No macros found"))%string = false.
Proof.
  apply orb_false_intro.
  - destruct name; reflexivity.
  - apply String.eqb_neq. intros H.
    do 15 (destruct name as [ | ? name]; simpl in H; [discriminate H | ];
           injection H as _ H).
    destruct name; discriminate H.
Qed.

(** The encoding of a faithful event is made of numbers, strings and
    booleans only. *)
Lemma faithful_serialized_json (P : Platform) (e : event) (j : pyval) :
  faithful P e = true -> serialize_event P e = Ok j -> is_json j = true.
Proof.
  destruct e as [[t kind] d]. unfold faithful.
  intros H Hs. apply andb_prop in H. destruct H as [Ht H].
  destruct kind as [ | | | | k | | | | | | | | ]; try discriminate.
  assert (Jt : is_json t = true) by (destruct t; trivial; discriminate).
  assert (Jn : forall x, is_number x = true -> is_json x = true)
    by (intros x; destruct x; trivial; discriminate).
  unfold serialize_event in Hs. rewrite is_in_PStr in Hs. unfold member in Hs.
  simpl existsb in Hs. rewrite orb_false_r in Hs.
  destruct ((k =? "key_press") || (k =? "key_release"))%string eqn:Ek.
  - destruct d as [ | | | | | | | | vk [c|] [|] | n | | | ]; try discriminate;
      simpl in Hs; injection Hs as <-; simpl; now rewrite Jt.
  - apply orb_false_elim in Ek. destruct Ek as [E1 E2].
    rewrite !py_eq_PStr in Hs.
    destruct (k =? "mouse_move")%string eqn:Em.
    { destruct d as [ | | | | | | [ | x [ | y [ | ? ?]]] | | | | | | ]; try discriminate.
      apply andb_prop in H. destruct H as [Hx Hy].
      simpl in Hs. injection Hs as <-. simpl.
      now rewrite Jt, (Jn x Hx), (Jn y Hy). }
    destruct (k =? "mouse_click")%string eqn:Ec.
    { destruct d as [ | | | | | | [ | x [ | y [ | b [ | p [ | ? ?]]]]] | | | | | | ];
        try discriminate;
        destruct b; try discriminate; destruct p; try discriminate.
      apply andb_prop in H. destruct H as [H Hb].
      apply andb_prop in H. destruct H as [Hx Hy].
      simpl in Hs. injection Hs as <-. simpl.
      now rewrite Jt, (Jn x Hx), (Jn y Hy). }
    destruct (k =? "mouse_scroll")%string eqn:Es; try discriminate.
    destruct d as [ | | | | | | [ | x [ | y [ | dx [ | dy [ | ? ?]]]]] | | | | | | ];
      try discriminate.
    apply andb_prop in H. destruct H as [H Hdy].
    apply andb_prop in H. destruct H as [H Hdx].
    apply andb_prop in H. destruct H as [Hx Hy].
    simpl in Hs. injection Hs as <-. simpl.
    now rewrite Jt, (Jn x Hx), (Jn y Hy), (Jn dx Hdx), (Jn dy Hdy).
Qed.

Lemma traverse_faithful_json (P : Platform) (evs : list event) :
  forall l,
  forallb (faithful P) evs = true ->
  traverse (serialize_event P) evs = Ok l ->
  forallb is_json l = true.
Proof.
  induction evs as [ | e evs IH]; simpl; intros l H Hl.
  - injection Hl as <-. reflexivity.
  - apply andb_prop in H. destruct H as [He Hs].
    destruct (serialize_event P e) as [j | ] eqn:Ej; [ | discriminate].
    destruct (traverse (serialize_event P) evs) as [js | ]; [ | discriminate].
    injection Hl as <-. simpl.
    now rewrite (faithful_serialized_json P e j He Ej), (IH js Hs eq_refl).
Qed.

(** X12: a macro of faithful events that is saved under a name, the dialog
    being accepted and the file writable, is stored as a document; loading
    the file of that name gives back a macro equal to the one saved,
    whatever the disk held before. *)
Theorem saved_macro_loads_back (P : Platform) (join : string -> string -> string)
        (e : event) (rest : list event) (name : string) (disk : files) :
  forallb (faithful P) (e :: rest) = true ->
  (name =? "")%string = false ->
  snd (save_macro P join (e :: rest) (name, true) true disk)
    = Saved (join macros_folder (String.append name ".json")) /\
  exists evs',
    load_macro P join (String.append name ".json")
      (fst (save_macro P join (e :: rest) (name, true) true disk))
      = Loaded evs' /\
    events_eq evs' (e :: rest) = true.
Proof.
  intros Hf Hn.
  assert (Hr : forallb (roundtrip P) (e :: rest) = true).
  { rewrite forallb_forall in *. intros x Hx. apply roundtrip_faithful, Hf, Hx. }
  destruct (traverse_roundtrip P (e :: rest) Hr) as (l & evs' & Hl & Hd & Heq).
  pose proof (traverse_faithful_json P (e :: rest) l Hf Hl) as Hj.
  unfold save_macro, load_macro. rewrite Hn. cbn [andb negb].
  rewrite Hl, (json_dump_json (PList l) Hj). cbn [fst snd].
  split; [reflexivity | ].
  rewrite saved_name_is_a_selection, assoc_dict_set_same.
  exists evs'. unfold deserialize_events. cbn [iterate bind]. rewrite Hd.
  now split.
Qed.

Lemma saved_macro_loads_back_sample :
  snd (save_macro desktop slash_join (press_a :: [click_left]) ("demo", true) true
         disk_with_demo)
    = Saved (slash_join macros_folder (String.append "demo" ".json")) /\
  exists evs',
    load_macro desktop slash_join (String.append "demo" ".json")
      (fst (save_macro desktop slash_join (press_a :: [click_left]) ("demo", true)
              true disk_with_demo))
      = Loaded evs' /\
    events_eq evs' (press_a :: [click_left]) = true.
Proof.
  apply (saved_macro_loads_back desktop slash_join press_a [click_left] "demo"
           disk_with_demo); reflexivity.
Defined.

(** X13: [save_macro] changes no file but the one of the name it is given;
    and it leaves the whole disk as it is when there is no event to save,
    when the dialog is dismissed, when the name is empty, and when the file
    cannot be opened. *)
Theorem save_changes_one_file (P : Platform) (join : string -> string -> string)
        (evs : list event) (name : string) (ok writable : bool) (disk : files) :
  (forall path,
     String.eqb path (join macros_folder (String.append name ".json")) = false ->
     assoc path (fst (save_macro P join evs (name, ok) writable disk))
     = assoc path disk) /\
  (is_nil evs || negb ok || (name =? "")%string || negb writable = true ->
   fst (save_macro P join evs (name, ok) writable disk) = disk).
Proof.
  unfold save_macro. split.
  - intros path Hp. destruct evs as [ | e rest]; trivial.
    destruct (ok && negb (name =? "")%string); trivial.
    destruct writable; trivial.
    destruct (traverse (serialize_event P) (e :: rest)) as [l | x]; cbn [fst].
    + destruct (json_dump (PList l)); cbn [fst]; now apply assoc_dict_set_other.
    + now apply assoc_dict_set_other.
  - destruct evs as [ | e rest]; trivial.
    destruct ok, (name =? "")%string, writable; try discriminate; reflexivity.
Qed.

(** X14: the file is opened for writing before the events are encoded: when
    the encoding or the writing of the macro raises, the file of that name is
    left unreadable, a macro saved earlier under the name is lost, and
    loading the file fails; the other files are as they were. *)
Theorem failed_save_empties_file (P : Platform) (join : string -> string -> string)
        (e : event) (rest : list event) (name : string) (disk : files) :
  writable_macro P (e :: rest) = false ->
  (name =? "")%string = false ->
  assoc (join macros_folder (String.append name ".json"))
        (fst (save_macro P join (e :: rest) (name, true) true disk))
    = Some Unreadable /\
  load_macro P join (String.append name ".json")
    (fst (save_macro P join (e :: rest) (name, true) true disk))
    = LoadFailed ValueError /\
  (forall path,
     String.eqb path (join macros_folder (String.append name ".json")) = false ->
     assoc path (fst (save_macro P join (e :: rest) (name, true) true disk))
     = assoc path disk).
Proof.
  intros Hw Hn. unfold writable_macro in Hw.
  assert (Hs : fst (save_macro P join (e :: rest) (name, true) true disk)
               = dict_set (join macros_folder (String.append name ".json"))
                          Unreadable disk).
  { unfold save_macro. rewrite Hn. cbn [andb negb].
    destruct (traverse (serialize_event P) (e :: rest)) as [l | x]; trivial.
    cbn [bind] in Hw. destruct (json_dump (PList l)); [discriminate | trivial]. }
  rewrite Hs. split; [apply assoc_dict_set_same | split].
  - unfold load_macro.
    now rewrite saved_name_is_a_selection, assoc_dict_set_same.
  - intros path Hp. now apply assoc_dict_set_other.
Qed.

Lemma failed_save_empties_file_sample :
  assoc (slash_join macros_folder (String.append "demo" ".json"))
        (fst (save_macro desktop slash_join (click_without_button :: []) ("demo", true)
                true disk_with_demo))
    = Some Unreadable /\
  load_macro desktop slash_join (String.append "demo" ".json")
    (fst (save_macro desktop slash_join (click_without_button :: []) ("demo", true)
            true disk_with_demo))
    = LoadFailed ValueError /\
  (forall path,
     String.eqb path (slash_join macros_folder (String.append "demo" ".json")) = false ->
     assoc path (fst (save_macro desktop slash_join (click_without_button :: [])
                        ("demo", true) true disk_with_demo))
     = assoc path disk_with_demo).
Proof.
  apply (failed_save_empties_file desktop slash_join click_without_button []
           "demo" disk_with_demo); reflexivity.
Defined.

(** ** The end of a capture *)







(** Inputs other than a timer leave the oldest pending timer in place. *)
Lemma run_keeps_first_timer (mid : list input) :
  forall s first rest,
  forallb (fun i => negb (is_timer i)) mid = true ->
  timers s = first :: rest ->
  exists rest', timers (run s mid) = first :: rest'.
Proof.
  unfold run. induction mid as [ | i mid IH]; intros s first rest Hm Ht; simpl.
  - now exists rest.
  - simpl in Hm. apply andb_prop in Hm. destruct Hm as [Hi Hm].
    assert (Hs : exists r, timers (step s i) = first :: r).
    { destruct i as [now key | now key | now x y | now x y b p
                     | now x y dx dy | | ]; cbn [step]; try discriminate;
        unfold on_key_press, on_key_release, on_click, on_scroll,
          record_event, stop_recording.
      - destruct (py_eq key stop_hotkey).
        + destruct (hotkey_triggered (recorder s)); simpl; rewrite Ht; simpl; eauto.
        + destruct (recording (recorder s)); simpl; eauto.
          destruct (start_time (recorder s)); simpl; eauto.
      - destruct (py_eq key stop_hotkey); simpl; eauto.
        destruct (recording (recorder s)); simpl; eauto.
        destruct (start_time (recorder s)); simpl; eauto.
      - eauto.
      - destruct (recording (recorder s)); simpl; eauto.
        destruct (start_time (recorder s)); simpl; eauto.
      - destruct (recording (recorder s)); simpl; eauto.
        destruct (start_time (recorder s)); simpl; eauto.
      - destruct (recording (recorder s)); simpl; eauto.
        destruct (on_stop (recorder s)); simpl; rewrite ?Ht; simpl; eauto. }
    destruct Hs as [r Hr]. exact (IH (step s i) first r Hm Hr).
Qed.

(** X16: when no timer is pending and the stop key has not been pressed yet,
    a press of the stop key stops the recording as soon as Qt runs a timer,
    whatever reaches the recorder in between. *)
Theorem stop_key_stops_recording (s : session) (now : Q) (mid : list input) :
  timers s = [] ->
  hotkey_triggered (recorder s) = false ->
  forallb (fun i => negb (is_timer i)) mid = true ->
  recording (recorder (run s (KeyPressed now stop_hotkey :: mid ++ [TimerFired])))
  = false.
Proof.
  intros Ht Hh Hm.
  change (run s (KeyPressed now stop_hotkey :: mid ++ [TimerFired]))
    with (run (step s (KeyPressed now stop_hotkey)) (mid ++ [TimerFired])).
  unfold run. rewrite fold_left_app. cbn [fold_left].
  assert (H0 : timers (step s (KeyPressed now stop_hotkey)) = [StopFromHotkey]).
  { cbn [step]. unfold on_key_press. simpl. rewrite Hh. simpl. now rewrite Ht. }
  destruct (run_keeps_first_timer mid _ _ _ Hm H0) as [rest' Hr].
  unfold run in Hr. rewrite step_recording. cbn [runs_stop_path].
  rewrite Hr. apply andb_false_r.
Qed.

Lemma stop_key_stops_recording_sample :
  recording (recorder (run (started true 5)
     (KeyPressed 6 stop_hotkey :: typing ++ [TimerFired]))) = false.
Proof.
  apply (stop_key_stops_recording (started true 5) 6 typing); reflexivity.
Defined.
